(** * csi_train_service: the journey decision pipeline of server.js

    A shallow embedding of the request handlers of the train delay
    protection backend ([POST /payouts], [POST /delay]) and of their helper
    functions ([decode], [checkTimeframe], [checkForRps],
    [retrieveArrivalDate], [retrieveDepartureDate], [calculateDelayMinutes]),
    together with the properties the specification states about them.
    The testing endpoints ([/delayOracleTesting], [/changeDelay],
    [/getDelay]) and the pure helpers of telegram.js ([format],
    [retrieveStops]) are embedded as well, with further properties of the
    handlers read off the code.

    Conventions of the embedding.
    - A JavaScript string is a [string] holding its UTF-8 bytes.  The only
      characters the code inspects (the separators [;] and [:], the letters
      of "bus", decimal digits) are ASCII, and a UTF-8 multi-byte sequence
      contains no ASCII byte, so splitting and searching on bytes agrees
      with splitting and searching on characters.
    - A plain JavaScript object is an association list in property
      (insertion) order: [JSON.stringify], [Object.keys] and [for .. in]
      all enumerate in that order.
    - A JavaScript number is [option Q]: [None] is NaN, and the finite
      doubles the handlers compute with are idealised as exact rationals.
    - A thrown exception is a result of its own ([Throw]); a handler that
      lets one escape answers nothing ([Uncaught]).
    - The [type] of a [/payouts] body is a string or absent in
      [payouts_body], on which most properties are stated; [payouts_request]
      lets it be any value of the parsed body, and the two handlers agree
      on a string or absent type.  In the same way the cache is a map in
      [post_payouts] and a store of any kind in [post_payouts_in]. *)

From Stdlib Require Import ZArith QArith Qround Qminmax Bool List Lia.
From Stdlib Require Import Ascii String DecimalString DecimalNat.
Import ListNotations.

Local Open Scope string_scope.
Local Open Scope list_scope.

(* ===================================================================== *)
(** ** Exceptions *)
(* ===================================================================== *)

Inductive exn : Type :=
| TypeError            (* property access or call on undefined, ... *)
| MissingData          (* [throw new Error('Missing Data')] *)
| UpstreamFailure.     (* a rejected [fetch] or a non-200 prediction *)

Inductive completion (A : Type) : Type :=
| Ok (a : A)
| Throw (e : exn).
Arguments Ok {A} a.
Arguments Throw {A} e.

Definition bind {A B : Type} (c : completion A) (k : A -> completion B)
  : completion B :=
  match c with
  | Ok a => k a
  | Throw e => Throw e
  end.

Notation "'let*' x ':=' c 'in' k" := (bind c (fun x => k))
  (at level 10, x name, c at level 100, k at level 200).

(* ===================================================================== *)
(** ** Strings *)
(* ===================================================================== *)

(** [s.split(sep)] for a one-character separator. *)
Fixpoint split (sep : ascii) (s : string) : list string :=
  match s with
  | EmptyString => [EmptyString]
  | String c rest =>
      if Ascii.eqb c sep then EmptyString :: split sep rest
      else match split sep rest with
           | [] => [String c EmptyString]
           | tok :: toks => String c tok :: toks
           end
  end.

(** [tokens.join(sep)]. *)
Fixpoint join (sep : ascii) (tokens : list string) : string :=
  match tokens with
  | [] => EmptyString
  | [tok] => tok
  | tok :: rest => tok ++ String sep (join sep rest)
  end.

(** The character [c] occurs in [s]. *)
Fixpoint contains_char (c : ascii) (s : string) : bool :=
  match s with
  | EmptyString => false
  | String d rest => Ascii.eqb d c || contains_char c rest
  end.

(** [s.toLowerCase()] on the ASCII letters; bytes of non-ASCII characters are
    kept (their lower-case forms are again non-ASCII). *)
Definition lower_ascii (c : ascii) : ascii :=
  let n := nat_of_ascii c in
  if (65 <=? n)%nat && (n <=? 90)%nat then ascii_of_nat (n + 32) else c.

Fixpoint toLowerCase (s : string) : string :=
  match s with
  | EmptyString => EmptyString
  | String c rest => String (lower_ascii c) (toLowerCase rest)
  end.

(** [needle] is found at the very start of [s]. *)
Fixpoint starts_with (s needle : string) : bool :=
  match needle, s with
  | EmptyString, _ => true
  | String _ _, EmptyString => false
  | String a needle', String b s' => Ascii.eqb a b && starts_with s' needle'
  end.

(** [s.includes(needle)]: [needle] is found at some position of [s]. *)
Fixpoint includes (s needle : string) : bool :=
  starts_with s needle ||
  match s with
  | EmptyString => false
  | String _ rest => includes rest needle
  end.

(** Number-to-string conversion of a non-negative integer, as in
    ['leg_' + (i + 1)]. *)
Definition string_of_nat (n : nat) : string :=
  NilEmpty.string_of_uint (Nat.to_uint n).

(* ===================================================================== *)
(** ** Plain objects *)
(* ===================================================================== *)

Definition obj (A : Type) : Type := list (string * A).

(** [o[k]]: [None] is [undefined]. *)
Fixpoint obj_get {A : Type} (k : string) (o : obj A) : option A :=
  match o with
  | [] => None
  | (k', v) :: rest => if String.eqb k k' then Some v else obj_get k rest
  end.

(** [o[k] = v]: an existing property keeps its place, a new one goes last. *)
Fixpoint obj_set {A : Type} (k : string) (v : A) (o : obj A) : obj A :=
  match o with
  | [] => [(k, v)]
  | (k', v') :: rest =>
      if String.eqb k k' then (k, v) :: rest else (k', v') :: obj_set k v rest
  end.

(** [Object.keys(o)]. *)
Definition keys {A : Type} (o : obj A) : list string := map fst o.

(** A leg is an object with string-valued fields; a journey maps
    [leg_1], [leg_2], ... to legs. *)
Definition leg : Type := obj string.
Definition journey : Type := obj leg.

(* ===================================================================== *)
(** ** decode *)
(* ===================================================================== *)

(** [values[j]]; every index [decode] reads is in range
    (see [decode_reads_in_range]), so the default is never produced. *)
Definition at_index (values : list string) (j : nat) : string :=
  nth j values EmptyString.

(** The object literal of the first loop of [decode]. *)
Definition leg_at (values : list string) (j : nat) : leg :=
  [ ("train", at_index values j);
    ("start_stop", at_index values (j + 1));
    ("start_time", at_index values (j + 2));
    ("start_date", at_index values (j + 3));
    ("arrival_stop", at_index values (j + 4));
    ("arrival_time", at_index values (j + 5));
    ("arrival_date", at_index values (j + 6)) ].

(** [for (let i = 0; i < amountLegs; i++) { ...; legs.push(obj) }] *)
Definition build_legs (values : list string) (amountLegs : nat) : list leg :=
  fold_left (fun legs i => legs ++ [leg_at values (i * 7)])
            (seq 0 amountLegs) [].

(** [for (let i = 0; i < amountLegs; i++) journey['leg_' + (i + 1)] = legs[i]] *)
Definition number_legs (legs : list leg) (amountLegs : nat) : journey :=
  fold_left (fun j i => obj_set ("leg_" ++ string_of_nat (i + 1)) (nth i legs []) j)
            (seq 0 amountLegs) [].

Definition decode (_encoded : string) : journey :=
  let values := split ";" _encoded in
  if negb (Nat.eqb (Nat.modulo (List.length values) 7) 0) then []
  else
    let amountLegs := Nat.div (List.length values) 7 in
    let legs := build_legs values amountLegs in
    number_legs legs amountLegs.

(* ===================================================================== *)
(** ** validator.js *)
(* ===================================================================== *)

Definition in_range (lo hi : nat) (c : ascii) : bool :=
  let n := nat_of_ascii c in (lo <=? n)%nat && (n <=? hi)%nat.

Definition digit_upto (hi : nat) (c : ascii) : bool := in_range 48 (48 + hi) c.

(** [/^([0-2][0-9])\:([0-5][0-9])$/] *)
Definition time_regex (s : string) : bool :=
  match s with
  | String h1 (String h2 (String colon (String m1 (String m2 EmptyString)))) =>
      digit_upto 2 h1 && digit_upto 9 h2 && Ascii.eqb colon ":"
      && digit_upto 5 m1 && digit_upto 9 m2
  | _ => false
  end.

(** [/^(2[0-9]{3})\-([0-1][0-9])\-([0-3][0-9])$/] *)
Definition date_regex (s : string) : bool :=
  match s with
  | String y1 (String y2 (String y3 (String y4 (String dash1
      (String mo1 (String mo2 (String dash2 (String d1 (String d2
         EmptyString))))))))) =>
      Ascii.eqb y1 "2" && digit_upto 9 y2 && digit_upto 9 y3 && digit_upto 9 y4
      && Ascii.eqb dash1 "-" && digit_upto 1 mo1 && digit_upto 9 mo2
      && Ascii.eqb dash2 "-" && digit_upto 3 d1 && digit_upto 9 d2
  | _ => false
  end.

Definition legSchema_keys : list string :=
  [ "train"; "start_stop"; "start_time"; "start_date";
    "arrival_stop"; "arrival_time"; "arrival_date" ].

(** [Joi.string().required()]: present and not the empty string. *)
Definition string_required (k : string) (l : leg) : bool :=
  match obj_get k l with
  | Some v => negb (String.eqb v "")
  | None => false
  end.

(** [Joi.string().regex(re)]: absent, or a string matching [re]. *)
Definition string_regex (re : string -> bool) (k : string) (l : leg) : bool :=
  match obj_get k l with
  | Some v => re v
  | None => true
  end.

(** [validateLeg(leg)] reports no error.  Joi rejects keys the schema does
    not list. *)
Definition validateLeg (l : leg) : bool :=
  forallb (fun k => existsb (String.eqb k) legSchema_keys) (keys l)
  && string_required "train" l
  && string_required "start_stop" l
  && string_regex time_regex "start_time" l
  && string_regex date_regex "start_date" l
  && string_required "arrival_stop" l
  && string_regex time_regex "arrival_time" l
  && string_regex date_regex "arrival_date" l.

(** [validateType({type: type})] reports no error. *)
Definition validateType (type : option string) : bool :=
  match type with
  | Some t => existsb (String.eqb t) ["small"; "medium"; "large"; "all"]
  | None => false
  end.

(* ===================================================================== *)
(** ** Numbers and the Date object *)
(* ===================================================================== *)

(** A number: [None] is NaN. *)
Definition number : Type := option Q.

Definition num_of_Z (z : option Z) : number := option_map inject_Z z.

Definition num_div (a : number) (d : Q) : number :=
  option_map (fun x => x / d)%Q a.

(** [a < b], [a <= b], [a > b], [a >= b]: false as soon as one side is NaN. *)
Definition num_ltb (a b : number) : bool :=
  match a, b with
  | Some x, Some y => negb (Qle_bool y x)
  | _, _ => false
  end.

Definition num_leb (a b : number) : bool :=
  match a, b with
  | Some x, Some y => Qle_bool x y
  | _, _ => false
  end.

Definition num_gtb (a b : number) : bool := num_ltb b a.
Definition num_geb (a b : number) : bool := num_leb b a.

(** [Math.ceil]. *)
Definition Math_ceil (a : number) : option Z := option_map Qceiling a.

(** What the engine supplies to [Date]: the zone's offset from UTC in
    milliseconds ([LocalTZA(t, isUTC)] of ECMA-262), the day number of the
    first day of the month a day falls in, [Date.parse], and the integer a
    string argument of [setHours]/[setMinutes] converts to ([None] when the
    conversion yields NaN or an infinity). *)
Record runtime : Type := {
  LocalTZA : Z -> bool -> Z;
  monthStart : Z -> Z;
  Date_parse : string -> option Z;
  StringToInteger : string -> option Z
}.

(** A Date object is its time value: milliseconds since the epoch, or NaN. *)
Definition Date : Type := option Z.

Definition msPerDay : Z := 86400000.
Definition msPerHour : Z := 3600000.
Definition msPerMinute : Z := 60000.
Definition msPerSecond : Z := 1000.

Definition Day (t : Z) : Z := (t / msPerDay)%Z.
Definition TimeWithinDay (t : Z) : Z := (t mod msPerDay)%Z.
Definition HourFromTime (t : Z) : Z := ((t / msPerHour) mod 24)%Z.
Definition MinFromTime (t : Z) : Z := ((t / msPerMinute) mod 60)%Z.
Definition SecFromTime (t : Z) : Z := ((t / msPerSecond) mod 60)%Z.
Definition msFromTime (t : Z) : Z := (t mod msPerSecond)%Z.

Definition MakeTime (h m s ms : Z) : Z :=
  (h * msPerHour + m * msPerMinute + s * msPerSecond + ms)%Z.
Definition MakeDate (day time : Z) : Z := (day * msPerDay + time)%Z.

Definition TimeClip (t : Z) : Date :=
  if (Z.abs t <=? 8640000000000000)%Z then Some t else None.

Section DateObject.
Variable rt : runtime.

Definition LocalTime (t : Z) : Z := (t + LocalTZA rt t true)%Z.
Definition UTC (t : Z) : Z := (t - LocalTZA rt t false)%Z.

(** [new Date(value)] for a string or [undefined]. *)
Definition Date_new (value : option string) : Date :=
  match value with
  | Some s => Date_parse rt s
  | None => None
  end.

Definition getTime (d : Date) : option Z := d.

(** [d.getDate()]: the day of the month, in local time. *)
Definition getDate (d : Date) : option Z :=
  match d with
  | Some t =>
      let day := Day (LocalTime t) in Some (day - monthStart rt day + 1)%Z
  | None => None
  end.

(** [d.setDate(dt)]: [MakeDay(year, month, dt)] is the day number of the
    first of the month plus [dt - 1]; the time within the day is kept. *)
Definition setDate (d : Date) (dt : option Z) : Date :=
  match d, dt with
  | Some t, Some n =>
      let tl := LocalTime t in
      let day := (monthStart rt (Day tl) + n - 1)%Z in
      TimeClip (UTC (MakeDate day (TimeWithinDay tl)))
  | _, _ => None
  end.

(** [d.setHours(hour)] with a string argument. *)
Definition setHours (d : Date) (hour : string) : Date :=
  match d, StringToInteger rt hour with
  | Some t, Some h =>
      let tl := LocalTime t in
      TimeClip (UTC (MakeDate (Day tl)
        (MakeTime h (MinFromTime tl) (SecFromTime tl) (msFromTime tl))))
  | _, _ => None
  end.

(** [d.setMinutes(min)] with a string or [undefined] argument. *)
Definition setMinutes (d : Date) (min : option string) : Date :=
  match d, option_map (StringToInteger rt) min with
  | Some t, Some (Some m) =>
      let tl := LocalTime t in
      TimeClip (UTC (MakeDate (Day tl)
        (MakeTime (HourFromTime tl) m (SecFromTime tl) (msFromTime tl))))
  | _, _ => None
  end.
End DateObject.

(* ===================================================================== *)
(** ** Helper functions of server.js *)
(* ===================================================================== *)

Definition TIME_MIN : Q := 1.
Definition TIME_MAX : Q := 10.

Section Helpers.
Variable rt : runtime.

(** The Date built from a date field and a time field:
    [new Date(date)], then [setHours(time.split(':')[0])] and
    [setMinutes(time.split(':')[1])].  Calling [split] on an absent time
    field is a TypeError. *)
Definition merge_date_time (date time : option string) : completion Date :=
  let d := Date_new rt date in
  match time with
  | None => Throw TypeError
  | Some tm =>
      let parts := split ":" tm in
      let d1 := setHours rt d (nth 0 parts EmptyString) in
      let d2 := setMinutes rt d1 (nth_error parts 1) in
      Ok d2
  end.

Definition retrieveArrivalDate (_journey : journey) : completion Date :=
  let amountLegs := List.length (keys _journey) in
  match obj_get ("leg_" ++ string_of_nat amountLegs) _journey with
  | Some arrivalLeg =>
      merge_date_time (obj_get "arrival_date" arrivalLeg)
                      (obj_get "arrival_time" arrivalLeg)
  | None => Throw MissingData
  end.

Definition retrieveDepartureDate (_journey : journey) : completion Date :=
  match obj_get "leg_1" _journey with
  | Some departureLeg =>
      merge_date_time (obj_get "start_date" departureLeg)
                      (obj_get "start_time" departureLeg)
  | None => Throw MissingData
  end.

(** [diff] of [checkTimeframe], in days. *)
Definition diffDays (departure : Date) (now : Z) : number :=
  num_div (num_of_Z (option_map (fun d => d - now)%Z departure))
          (1000 * 60 * 60 * 24).

(** [Some true] is [return true]; [None] is falling off the end
    ([undefined]).  [now] is [Date.now()]. *)
Definition checkTimeframe (now : Z) (j : journey) : completion (option bool) :=
  let* departure := retrieveDepartureDate j in
  let diff := diffDays departure now in
  if num_leb diff (Some TIME_MIN) || num_geb diff (Some TIME_MAX)
  then Ok (Some true)
  else Ok None.

(** [leg.train.toLowerCase()] on a leg without [train] is a TypeError. *)
Fixpoint checkForRps (j : journey) : completion bool :=
  match j with
  | [] => Ok false
  | (_, leg) :: rest =>
      match obj_get "train" leg with
      | None => Throw TypeError
      | Some train =>
          let name := toLowerCase train in
          if includes name "bus" then Ok true else checkForRps rest
      end
  end.

(** Returns the delay in minutes and the Date [_realDate] is left as. *)
Definition calculateDelayMinutes (_scheduledDate _realDate : Date)
  : number * Date :=
  let fixed :=
    if num_ltb (num_of_Z (getTime _realDate))
               (num_of_Z (option_map (fun s => s - 4 * 60 * 60 * 1000)%Z
                                     (getTime _scheduledDate)))
    then setDate rt _realDate
                 (option_map (fun d => d + 1)%Z (getDate rt _realDate))
    else _realDate in
  let diff :=
    match fixed, _scheduledDate with
    | Some r, Some s => Some (r - s)%Z
    | _, _ => None
    end in
  (num_div (num_div (num_of_Z diff) 1000) 60, fixed).
End Helpers.

(* ===================================================================== *)
(** ** JSON.stringify *)
(* ===================================================================== *)

Definition hex_digit (n : nat) : ascii :=
  if (n <? 10)%nat then ascii_of_nat (48 + n) else ascii_of_nat (87 + n).

Definition dquote : ascii := ascii_of_nat 34.
Definition backslash : ascii := ascii_of_nat 92.

Definition escaped (c : ascii) : string := String backslash (String c EmptyString).

(** The escape JSON.stringify writes for one byte of a string. *)
Definition json_escape (c : ascii) : string :=
  let n := nat_of_ascii c in
  if Ascii.eqb c dquote then escaped dquote
  else if Ascii.eqb c backslash then escaped backslash
  else if Nat.eqb n 8 then escaped "b"
  else if Nat.eqb n 9 then escaped "t"
  else if Nat.eqb n 10 then escaped "n"
  else if Nat.eqb n 12 then escaped "f"
  else if Nat.eqb n 13 then escaped "r"
  else if (n <? 32)%nat
       then String backslash
              ("u00" ++ String (hex_digit (n / 16))
                         (String (hex_digit (n mod 16)) EmptyString))%string
       else String c EmptyString.

Fixpoint json_escape_string (s : string) : string :=
  match s with
  | EmptyString => EmptyString
  | String c rest => (json_escape c ++ json_escape_string rest)%string
  end.

Definition json_quote (s : string) : string :=
  String dquote (json_escape_string s ++ String dquote EmptyString)%string.

(** An object: its members in property order, separated by commas. *)
Definition json_object {A : Type} (member : A -> string) (o : obj A) : string :=
  ("{" ++ join ","
            (map (fun kv => json_quote (fst kv) ++ ":" ++ member (snd kv)) o)
       ++ "}")%string.

Definition stringify_leg (l : leg) : string := json_object json_quote l.
Definition stringify_journey (j : journey) : string := json_object stringify_leg j.

(* ===================================================================== *)
(** ** sha256 (FIPS 180-4), as the js-sha256 package computes it:
       the digest of the UTF-8 bytes, written as 64 hexadecimal digits *)
(* ===================================================================== *)

Module SHA256.
Local Open Scope Z_scope.

Definition wrap (x : Z) : Z := x mod 2 ^ 32.
Definition add32 (x y : Z) : Z := wrap (x + y).
Definition rotr (n x : Z) : Z :=
  Z.lor (Z.shiftr x n) (wrap (Z.shiftl x (32 - n))).
Definition shr (n x : Z) : Z := Z.shiftr x n.
Definition not32 (x : Z) : Z := Z.lxor x 0xffffffff.

Definition Ch (x y z : Z) : Z := Z.lxor (Z.land x y) (Z.land (not32 x) z).
Definition Maj (x y z : Z) : Z :=
  Z.lxor (Z.lxor (Z.land x y) (Z.land x z)) (Z.land y z).
Definition Sigma0 (x : Z) : Z := Z.lxor (Z.lxor (rotr 2 x) (rotr 13 x)) (rotr 22 x).
Definition Sigma1 (x : Z) : Z := Z.lxor (Z.lxor (rotr 6 x) (rotr 11 x)) (rotr 25 x).
Definition sigma0 (x : Z) : Z := Z.lxor (Z.lxor (rotr 7 x) (rotr 18 x)) (shr 3 x).
Definition sigma1 (x : Z) : Z := Z.lxor (Z.lxor (rotr 17 x) (rotr 19 x)) (shr 10 x).

(** The first 64 primes. *)
Definition primes : list Z :=
  [ 2; 3; 5; 7; 11; 13; 17; 19; 23; 29; 31; 37; 41; 43; 47; 53;
    59; 61; 67; 71; 73; 79; 83; 89; 97; 101; 103; 107; 109; 113; 127; 131;
    137; 139; 149; 151; 157; 163; 167; 173; 179; 181; 191; 193; 197; 199;
    211; 223; 227; 229; 233; 239; 241; 251; 257; 263; 269; 271; 277; 281;
    283; 293; 307; 311 ].

(** The largest [x] below [2 ^ bits] with [x ^ 3 <= n], added to [acc]
    bit by bit. *)
Fixpoint cube_root (bits : nat) (acc n : Z) : Z :=
  match bits with
  | O => acc
  | S bits' =>
      let x := acc + 2 ^ Z.of_nat bits' in
      if x * x * x <=? n then cube_root bits' x n else cube_root bits' acc n
  end.

(** The round constants: the first 32 bits of the fractional part of the
    cube root of each of the first 64 primes. *)
Definition K : list Z :=
  map (fun p => wrap (cube_root 40 0 (p * 2 ^ 96))) primes.

(** The initial hash value: the first 32 bits of the fractional part of the
    square root of each of the first 8 primes. *)
Definition H0 : list Z :=
  map (fun p => wrap (Z.sqrt (p * 2 ^ 64))) (firstn 8 primes).

Fixpoint bytes_of_string (s : string) : list Z :=
  match s with
  | EmptyString => []
  | String c rest => Z.of_nat (nat_of_ascii c) :: bytes_of_string rest
  end.

(** The big-endian bytes of [x], [n] of them. *)
Fixpoint be_bytes (n : nat) (x : Z) : list Z :=
  match n with
  | O => []
  | S n' => Z.shiftr x (8 * Z.of_nat n') mod 256 :: be_bytes n' x
  end.

(** The message, a 1 bit, zero bits up to 56 modulo 64 bytes, and the
    length in bits on 8 bytes. *)
Definition pad (msg : list Z) : list Z :=
  let len := Z.of_nat (List.length msg) in
  let zeros := Z.to_nat ((55 - len) mod 64) in
  msg ++ [0x80] ++ repeat 0 zeros ++ be_bytes 8 (8 * len).

(** Big-endian 32-bit words of a byte list, [n] of them. *)
Fixpoint words (n : nat) (bytes : list Z) : list Z :=
  match n, bytes with
  | S n', b0 :: b1 :: b2 :: b3 :: rest =>
      (((b0 * 256 + b1) * 256 + b2) * 256 + b3) :: words n' rest
  | _, _ => []
  end.

Definition word (w : list Z) (t : nat) : Z := nth t w 0.

(** The message schedule: [w] holds W_0 .. W_(t-1) and is extended by
    [n] words. *)
Fixpoint schedule (n : nat) (w : list Z) : list Z :=
  match n with
  | O => w
  | S n' =>
      let t := List.length w in
      let next := add32 (add32 (sigma1 (word w (t - 2))) (word w (t - 7)))
                        (add32 (sigma0 (word w (t - 15))) (word w (t - 16))) in
      schedule n' (w ++ [next])
  end.

Definition state : Type := (Z * Z * Z * Z * Z * Z * Z * Z)%type.

Definition round (st : state) (kw : Z * Z) : state :=
  let '(a, b, c, d, e, f, g, h) := st in
  let '(k, w) := kw in
  let T1 := add32 (add32 (add32 h (Sigma1 e)) (add32 (Ch e f g) k)) w in
  let T2 := add32 (Sigma0 a) (Maj a b c) in
  (add32 T1 T2, a, b, c, add32 d T1, e, f, g).

Definition compress (st : state) (block : list Z) : state :=
  let w := schedule 48 (words 16 block) in
  let '(a, b, c, d, e, f, g, h) := fold_left round (combine K w) st in
  let '(a0, b0, c0, d0, e0, f0, g0, h0) := st in
  (add32 a0 a, add32 b0 b, add32 c0 c, add32 d0 d,
   add32 e0 e, add32 f0 f, add32 g0 g, add32 h0 h).

(** [n] blocks of 64 bytes. *)
Fixpoint blocks (n : nat) (st : state) (bytes : list Z) : state :=
  match n with
  | O => st
  | S n' => blocks n' (compress st (firstn 64 bytes)) (skipn 64 bytes)
  end.

Definition initial : state :=
  (word H0 0, word H0 1, word H0 2, word H0 3,
   word H0 4, word H0 5, word H0 6, word H0 7).

Definition hex_of_word (x : Z) : string :=
  string_of_list_ascii
    (map (fun i => hex_digit (Z.to_nat (Z.shiftr x (4 * Z.of_nat i) mod 16)))
         (rev (seq 0 8))).

Definition digest (s : string) : string :=
  let bytes := pad (bytes_of_string s) in
  let '(a, b, c, d, e, f, g, h) :=
    blocks (List.length bytes / 64) initial bytes in
  (hex_of_word a ++ hex_of_word b ++ hex_of_word c ++ hex_of_word d ++
   hex_of_word e ++ hex_of_word f ++ hex_of_word g ++ hex_of_word h)%string.
End SHA256.

Definition sha256 (message : string) : string := SHA256.digest message.

(* ===================================================================== *)
(** ** The request handlers *)
(* ===================================================================== *)

Definition STATUS_OK : Z := 0.
Definition STATUS_SEV : Z := 10.
Definition STATUS_TIME : Z := 20.
Definition STATUS_PROBABILITY : Z := 30.
Definition STATUS_MISSING_DELAY : Z := 40.
Definition STATUS_ERROR : Z := 100.

(** What a [journey] field of a request body can hold: nothing, a string
    (the contract's encoding) or an object (the website's journey). *)
Inductive jsvalue : Type :=
| JUndefined
| JString (s : string)
| JObject (j : journey).

(** How a handler ends: it sends a response, or an exception escapes it and
    no response is sent. *)
Inductive outcome (R : Type) : Type :=
| Sent (r : R)
| Uncaught (e : exn).
Arguments Sent {R} r.
Arguments Uncaught {R} e.

(** [decode(encodedJourney)] at a call site: [_encoded.split] exists only on
    a string. *)
Definition call_decode (encodedJourney : jsvalue) : completion journey :=
  match encodedJourney with
  | JString s => Ok (decode s)
  | _ => Throw TypeError
  end.

(** [Object.keys(journey).length === 0 && journey.constructor === Object] *)
Definition is_empty_object (v : jsvalue) : completion bool :=
  match v with
  | JUndefined => Throw TypeError
  | JString _ => Ok false
  | JObject j => Ok (Nat.eqb (List.length (keys j)) 0)
  end.

(** The loop [for (let leg in journey) validateLeg(journey[leg])] collected
    a message.  On a string it visits the characters, and none is a leg. *)
Definition leg_messages (v : jsvalue) : bool :=
  match v with
  | JUndefined => false
  | JString s => negb (String.eqb s "")
  | JObject j => existsb (fun kv => negb (validateLeg (snd kv))) j
  end.

(** The leg properties of the value. *)
Definition properties (v : jsvalue) : journey :=
  match v with
  | JObject j => j
  | _ => []
  end.

Definition stringify (v : jsvalue) : string :=
  match v with
  | JUndefined => "undefined"
  | JString s => json_quote s
  | JObject j => stringify_journey j
  end.

(** The fingerprint under which a journey's probability is cached. *)
Definition fingerprint (v : jsvalue) : string := sha256 (stringify v).

(** The LRU store, seen through [get] and [set]: what [cache.get] answers
    for each key.  Expiry and eviction belong to the lru-cache package:
    [cache_set] is the store after a [set] that evicts nothing, and the
    handler over a store of any kind is [post_payouts_in] below.  The
    values stored are the strings [toFixed(2)] returns, here the numbers
    they denote; such a string is never empty, so [if (entry)] asks whether
    the key is present. *)
Definition cache_t : Type := string -> option number.

Definition cache_get (c : cache_t) (key : string) : option number := c key.
Definition cache_set (c : cache_t) (key : string) (value : number) : cache_t :=
  fun k => if String.eqb k key then Some value else c k.

Definition is_all (type : option string) : bool :=
  match type with
  | Some t => String.eqb t "all"
  | None => false
  end.

(** The body of a [/payouts] request: [req.body.type], a string when it is
    present, and [req.body.journey].  A body whose [type] is another value
    is a [payouts_request] below. *)
Record payouts_body : Type := {
  body_type : option string;
  body_journey : jsvalue
}.

(** The world around one [/payouts] request: the clock, the cache, and the
    number [requestProbability] gets back from the prediction service
    (already multiplied by 100 and cut to two decimals by [toFixed(2)]),
    or the failure of that call. *)
Record payouts_env : Type := {
  Date_now : Z;
  cache : cache_t;
  prediction : journey -> completion number
}.

Section Payouts.
Variable rt : runtime.
Variable amount : Type.
(** [payout.json]: [PAYOUTS tier row] is [PAYOUTS[tier][row]]. *)
Variable PAYOUTS : string -> Z -> option amount.

Inductive payout_t : Type :=
| PayoutZero
| PayoutSingle (entry : option amount)
| PayoutAll (small medium large : option amount).

Record payouts_response : Type := {
  status : Z;
  payout : payout_t
}.

(** A response, the cache as the request leaves it, and the matrix cells
    that were read. *)
Record payouts_result : Type := {
  reply : outcome payouts_response;
  cache_after : cache_t;
  matrix_reads : list (string * option Z)
}.

Definition matrix_entry (tier : string) (row : option Z) : option amount :=
  match row with
  | Some r => PAYOUTS tier r
  | None => None
  end.

(** Lines 87-98: which journey the handler works on. *)
Definition select_journey (body : payouts_body) : completion jsvalue :=
  if negb (is_all (body_type body))
  then let* j := call_decode (body_journey body) in Ok (JObject j)
  else Ok (body_journey body).

(** The request is built from [requestBody.leg_1.start_stop],
    [arrivalLeg.arrival_stop] and the departure date, each of which throws
    on a missing leg; what the service answers is [prediction e]. *)
Definition requestProbability (e : payouts_env) (requestBody : journey)
  : completion number :=
  let amountLegs := List.length (keys requestBody) in
  let arrivalLeg := obj_get ("leg_" ++ string_of_nat amountLegs) requestBody in
  match obj_get "leg_1" requestBody, arrivalLeg with
  | Some _, Some _ =>
      let* _ := retrieveDepartureDate rt requestBody in
      prediction e requestBody
  | _, _ => Throw TypeError
  end.

(** Lines 169-195: the cap and the matrix lookup. *)
Definition resolve (type : option string) (probability : number)
  : outcome payouts_response * list (string * option Z) :=
  if num_gtb probability (Some 40%Q)
  then (Sent {| status := STATUS_PROBABILITY; payout := PayoutZero |}, [])
  else
    let probability := Math_ceil probability in
    match type with
    | None => (Uncaught TypeError, [])
    | Some t =>
        if String.eqb t "all"
        then (Sent {| status := STATUS_OK;
                      payout := PayoutAll (matrix_entry "small" probability)
                                          (matrix_entry "medium" probability)
                                          (matrix_entry "large" probability) |},
              [("small", probability); ("medium", probability);
               ("large", probability)])
        else (Sent {| status := STATUS_OK;
                      payout := PayoutSingle (matrix_entry t probability) |},
              [(t, probability)])
    end.

Definition respond (c : cache_t) (st : Z) : payouts_result :=
  {| reply := Sent {| status := st; payout := PayoutZero |};
     cache_after := c; matrix_reads := [] |}.

Definition escape (c : cache_t) (ex : exn) : payouts_result :=
  {| reply := Uncaught ex; cache_after := c; matrix_reads := [] |}.

Definition finish (c : cache_t) (type : option string) (probability : number)
  : payouts_result :=
  let '(r, reads) := resolve type probability in
  {| reply := r; cache_after := c; matrix_reads := reads |}.

(** Lines 145-162: the probability, from the cache or from the service. *)
Definition lookup_or_fetch (e : payouts_env) (journey : jsvalue)
  : completion (number * cache_t) :=
  let hash := fingerprint journey in
  match cache_get (cache e) hash with
  | Some entry => Ok (entry, cache e)
  | None =>
      let* probability := requestProbability e (properties journey) in
      Ok (probability, cache_set (cache e) hash probability)
  end.

(** Lines 100-196: the handler once the journey is selected.  The calls of
    [logRequest] are left out: it only notifies the chat bot, its promise
    is not awaited and nothing it does reaches the response. *)
Definition payouts_pipeline (e : payouts_env) (type : option string)
  (journey : jsvalue) : payouts_result :=
  let c := cache e in
  match is_empty_object journey with
  | Throw ex => escape c ex
  | Ok true => respond c STATUS_ERROR
  | Ok false =>
  if leg_messages journey || negb (validateType type)
  then respond c STATUS_ERROR
  else
  match checkTimeframe rt (Date_now e) (properties journey) with
  | Throw ex => escape c ex
  | Ok (Some true) => respond c STATUS_TIME
  | Ok _ =>
  match checkForRps (properties journey) with
  | Throw ex => escape c ex
  | Ok true => respond c STATUS_SEV
  | Ok false =>
  match lookup_or_fetch e journey with
  | Throw _ => respond c STATUS_ERROR
  | Ok (probability, c') => finish c' type probability
  end end end end.

(** [app.post('/payouts', ...)] *)
Definition post_payouts (e : payouts_env) (body : payouts_body)
  : payouts_result :=
  match select_journey body with
  | Throw ex => escape (cache e) ex
  | Ok journey => payouts_pipeline e (body_type body) journey
  end.
End Payouts.

Arguments PayoutZero {amount}.
Arguments PayoutSingle {amount} entry.
Arguments PayoutAll {amount} small medium large.
Arguments Build_payouts_response {amount} status payout.
Arguments status {amount} p.
Arguments payout {amount} p.
Arguments Build_payouts_result {amount} reply cache_after matrix_reads.
Arguments reply {amount} p.
Arguments cache_after {amount} p.
Arguments matrix_reads {amount} p.
Arguments matrix_entry {amount} PAYOUTS tier row.
Arguments resolve {amount} PAYOUTS type probability.
Arguments respond {amount} c st.
Arguments escape {amount} c ex.
Arguments finish {amount} PAYOUTS c type probability.
Arguments payouts_pipeline rt {amount} PAYOUTS e type journey.
Arguments post_payouts rt {amount} PAYOUTS e body.

(* ===================================================================== *)
(** ** [/payouts] when [type] is any value of the parsed body *)
(* ===================================================================== *)

(** A value of the body [express.json] has parsed.  A number is kept as the
    text [Number::toString] gives for it, which is all that is asked of a
    number here. *)
#[warnings="-register-all"] Inductive json : Type :=
| JsonNull
| JsonBoolean (b : bool)
| JsonNumber (text : string)
| JsonString (s : string)
| JsonArray (items : list json)
| JsonObject (members : list (string * json)).

(** [ToString(v)] of ECMA-262 for such a value; for an array or an object
    it is also what [ToPrimitive] returns.  An array is converted by
    [Array.prototype.join]: its elements are converted from left to right
    and separated by commas, and a [null] element counts as the empty
    string.  A plain object is converted by [Object.prototype.toString],
    unless a property of its own named [toString] hides that method: the
    property holds no function, [valueOf] returns the object, and the
    conversion throws a TypeError. *)
Fixpoint ToString (v : json) : completion string :=
  match v with
  | JsonNull => Ok "null"
  | JsonBoolean b => Ok (if b then "true" else "false")
  | JsonNumber text => Ok text
  | JsonString s => Ok s
  | JsonArray items =>
      (fix join_items (items : list json) : completion string :=
         match items with
         | [] => Ok EmptyString
         | item :: rest =>
             let* text := match item with
                          | JsonNull => Ok EmptyString
                          | _ => ToString item
                          end in
             match rest with
             | [] => Ok text
             | _ => let* more := join_items rest in
                    Ok (text ++ String "," more)%string
             end
         end) items
  | JsonObject members =>
      if existsb (String.eqb "toString") (keys members)
      then Throw TypeError
      else Ok "[object Object]"
  end.

(** [req.body.type != "all"] (line 91), the loose comparison of ECMA-262
    (IsLooselyEqual): a string is compared as it is; an array or an object
    is converted by [ToPrimitive] first; an absent type, [null], a boolean
    and a number differ from "all" (the number "all" converts to is NaN). *)
Definition differs_from_all (type : option json) : completion bool :=
  match type with
  | Some (JsonString s) => Ok (negb (String.eqb s "all"))
  | Some (JsonArray items) =>
      let* primitive := ToString (JsonArray items) in
      Ok (negb (String.eqb primitive "all"))
  | Some (JsonObject members) =>
      let* primitive := ToString (JsonObject members) in
      Ok (negb (String.eqb primitive "all"))
  | _ => Ok true
  end.

(** The body of a [/payouts] request, with [req.body.type] absent or any
    value. *)
Record payouts_request : Type := {
  request_type : option json;
  request_journey : jsvalue
}.

(** What [validateType] and the steps after it see of [type]: the string,
    when it is one.  Joi refuses every other value as it refuses a missing
    type, and the handler answers with status 100 before [type] is used
    again. *)
Definition type_string (type : option json) : option string :=
  match type with
  | Some (JsonString s) => Some s
  | _ => None
  end.

(** Lines 87-98 for such a body. *)
Definition select_journey_json (req : payouts_request) : completion jsvalue :=
  let* differs := differs_from_all (request_type req) in
  if differs
  then let* j := call_decode (request_journey req) in Ok (JObject j)
  else Ok (request_journey req).

(** [app.post('/payouts', ...)] for such a body. *)
Definition post_payouts_json (rt : runtime) {amount : Type}
  (PAYOUTS : string -> Z -> option amount) (e : payouts_env)
  (req : payouts_request) : payouts_result amount :=
  match select_journey_json req with
  | Throw ex => escape (cache e) ex
  | Ok journey =>
      payouts_pipeline rt PAYOUTS e (type_string (request_type req)) journey
  end.

(** A body whose [type] is a string or absent, as a body of this kind. *)
Definition request_of_body (body : payouts_body) : payouts_request :=
  {| request_type := option_map JsonString (body_type body);
     request_journey := body_journey body |}.

(* ===================================================================== *)
(** ** [/payouts] over a cache store of any kind *)
(* ===================================================================== *)

(** The cache of lines 65-71 is a store of the lru-cache package with room
    for 500 entries that live 10 minutes.  Here the store is known through
    its two operations only, and both may change it: [cache.get] moves the
    entry it finds to the front and drops an entry that has expired,
    [cache.set] may evict another entry. *)
Section Store.
Variable store : Type.
(** [cache.get(key)]: the entry, and the store afterwards. *)
Variable get : store -> string -> option number * store.
(** [cache.set(key, value)]: the store afterwards. *)
Variable set : store -> string -> number -> store.
Variable rt : runtime.
Variable amount : Type.
Variable PAYOUTS : string -> Z -> option amount.

(** A response, the store as the request leaves it, and the matrix cells
    that were read. *)
Record served : Type := {
  response : outcome (payouts_response amount);
  store_after : store;
  cells_read : list (string * option Z)
}.

(** Lines 145-162.  When [requestProbability] throws, the store is as
    [cache.get] left it. *)
Definition lookup_or_fetch_in (s : store) (e : payouts_env) (journey : jsvalue)
  : completion number * store :=
  let hash := fingerprint journey in
  let '(entry, s) := get s hash in
  match entry with
  | Some entry => (Ok entry, s)
  | None =>
      match requestProbability rt e (properties journey) with
      | Throw ex => (Throw ex, s)
      | Ok probability => (Ok probability, set s hash probability)
      end
  end.

(** Lines 100-196 over the store [s]; the cache of [e] is not looked at. *)
Definition payouts_pipeline_in (s : store) (e : payouts_env)
  (type : option string) (journey : jsvalue) : served :=
  let sent st :=
    {| response := Sent {| status := st; payout := PayoutZero |};
       store_after := s; cells_read := [] |} in
  let thrown ex :=
    {| response := Uncaught ex; store_after := s; cells_read := [] |} in
  match is_empty_object journey with
  | Throw ex => thrown ex
  | Ok true => sent STATUS_ERROR
  | Ok false =>
  if leg_messages journey || negb (validateType type)
  then sent STATUS_ERROR
  else
  match checkTimeframe rt (Date_now e) (properties journey) with
  | Throw ex => thrown ex
  | Ok (Some true) => sent STATUS_TIME
  | Ok _ =>
  match checkForRps (properties journey) with
  | Throw ex => thrown ex
  | Ok true => sent STATUS_SEV
  | Ok false =>
  match lookup_or_fetch_in s e journey with
  | (Throw _, s') =>
      {| response := Sent {| status := STATUS_ERROR; payout := PayoutZero |};
         store_after := s'; cells_read := [] |}
  | (Ok probability, s') =>
      let '(r, reads) := resolve PAYOUTS type probability in
      {| response := r; store_after := s'; cells_read := reads |}
  end end end end.

(** [app.post('/payouts', ...)] over the store [s]. *)
Definition post_payouts_in (s : store) (e : payouts_env) (body : payouts_body)
  : served :=
  match select_journey body with
  | Throw ex => {| response := Uncaught ex; store_after := s; cells_read := [] |}
  | Ok journey => payouts_pipeline_in s e (body_type body) journey
  end.
End Store.

Arguments response {store amount} s.
Arguments store_after {store amount} s.
Arguments cells_read {store amount} s.
Arguments lookup_or_fetch_in {store} get set rt s e journey.
Arguments payouts_pipeline_in {store} get set rt {amount} PAYOUTS s e type journey.
Arguments post_payouts_in {store} get set rt {amount} PAYOUTS s e body.

(** The store of [cache_t]: [get] answers and changes nothing, [set]
    changes the answer for its key. *)
Definition map_get (c : cache_t) (key : string) : option number * cache_t :=
  (cache_get c key, c).



(** The body of a [/delay] request: an object with a [journey] field, or
    the journey itself. *)
Inductive delay_body : Type :=
| WithJourneyField (encodedJourney : jsvalue)
| JourneyItself (j : journey).

Record delay_response : Type := {
  delay_status : Z;
  delay : number
}.

(** Lines 207-217: which journey the [/delay] handler works on. *)
Definition delay_journey (body : delay_body) : completion journey :=
  match body with
  | WithJourneyField encodedJourney => call_decode encodedJourney
  | JourneyItself j => Ok j
  end.

Section Delay.
Variable rt : runtime.
(** The answer of the train-tracking service to the posted journey, or the
    failure of that call. *)
Variable zugfinder : journey -> completion journey.

(** [app.post('/delay', ...)] *)
Definition post_delay (body : delay_body) : outcome delay_response :=
  match delay_journey body with
  | Throw ex => Uncaught ex
  | Ok journey =>
  if Nat.eqb (List.length (keys journey)) 0
  then Sent {| delay_status := STATUS_ERROR; delay := Some 0%Q |}
  else if existsb (fun kv => negb (validateLeg (snd kv))) journey
  then Sent {| delay_status := STATUS_ERROR; delay := Some 0%Q |}
  else
  match retrieveArrivalDate rt journey with
  | Throw ex => Uncaught ex
  | Ok scheduledArrivalDate =>
  match zugfinder journey with
  | Throw ex => Uncaught ex
  | Ok response =>
  match retrieveArrivalDate rt response with
  | Throw ex => Uncaught ex
  | Ok realArrivalDate =>
      let delay0 :=
        fst (calculateDelayMinutes rt scheduledArrivalDate realArrivalDate) in
      let delay1 := if num_ltb delay0 (Some 0%Q) then Some 0%Q else delay0 in
      Sent {| delay_status := STATUS_OK; delay := delay1 |}
  end end end end.
End Delay.

(* ===================================================================== *)
(** ** A concrete engine, for running the handlers *)
(* ===================================================================== *)

Module Engine.
Local Open Scope Z_scope.

(** Day number (days since 1970-01-01) of a proleptic Gregorian date. *)
Definition days_from_civil (y m d : Z) : Z :=
  let y' := if m <=? 2 then y - 1 else y in
  let era := y' / 400 in
  let yoe := y' - era * 400 in
  let mp := if m >? 2 then m - 3 else m + 9 in
  let doy := (153 * mp + 2) / 5 + d - 1 in
  let doe := yoe * 365 + yoe / 4 - yoe / 100 + doy in
  era * 146097 + doe - 719468.

(** Year, month and day of the month of a day number. *)
Definition civil_from_days (z : Z) : Z * Z * Z :=
  let z' := z + 719468 in
  let era := z' / 146097 in
  let doe := z' - era * 146097 in
  let yoe := (doe - doe / 1460 + doe / 36524 - doe / 146096) / 365 in
  let doy := doe - (365 * yoe + yoe / 4 - yoe / 100) in
  let mp := (5 * doy + 2) / 153 in
  let d := doy - (153 * mp + 2) / 5 + 1 in
  let m := if mp <? 10 then mp + 3 else mp - 9 in
  (yoe + era * 400 + (if m <=? 2 then 1 else 0), m, d).

Definition month_start (day : Z) : Z :=
  let '(_, _, d) := civil_from_days day in day - d + 1.

Definition digit_value (c : ascii) : option Z :=
  if digit_upto 9 c then Some (Z.of_nat (nat_of_ascii c) - 48) else None.

(** The value of a string of decimal digits. *)
Fixpoint digits_value (acc : Z) (s : string) : option Z :=
  match s with
  | EmptyString => Some acc
  | String c rest =>
      match digit_value c with
      | Some v => digits_value (acc * 10 + v) rest
      | None => None
      end
  end.

(** The string made of the given bytes. *)
Definition bytes (codes : list nat) : string :=
  string_of_list_ascii (map ascii_of_nat codes).

(** StrWhiteSpaceChar of ECMA-262 in UTF-8: TAB, LF, VT, FF, CR, SP, NBSP,
    U+1680, U+2000 to U+200A, LS, PS, U+202F, U+205F, U+3000 and the byte
    order mark. *)
Definition white_space : list string :=
  map bytes
    [ [9]; [10]; [11]; [12]; [13]; [32]; [194; 160]; [225; 154; 128];
      [226; 128; 128]; [226; 128; 129]; [226; 128; 130]; [226; 128; 131];
      [226; 128; 132]; [226; 128; 133]; [226; 128; 134]; [226; 128; 135];
      [226; 128; 136]; [226; 128; 137]; [226; 128; 138]; [226; 128; 168];
      [226; 128; 169]; [226; 128; 175]; [226; 129; 159]; [227; 128; 128];
      [239; 187; 191] ]%nat.

(** The text after [prefix], when [s] starts with it. *)
Fixpoint after (prefix s : string) : option string :=
  match prefix, s with
  | EmptyString, _ => Some s
  | String p prefix', String c rest =>
      if Ascii.eqb p c then after prefix' rest else None
  | String _ _, EmptyString => None
  end.

(** The text after the first of [prefixes] that [s] starts with. *)
Fixpoint after_any (prefixes : list string) (s : string) : option string :=
  match prefixes with
  | [] => None
  | prefix :: more =>
      match after prefix s with
      | Some rest => Some rest
      | None => after_any more s
      end
  end.

Fixpoint skip_white_space (fuel : nat) (s : string) : string :=
  match fuel with
  | O => s
  | S fuel' =>
      match after_any white_space s with
      | Some rest => skip_white_space fuel' rest
      | None => s
      end
  end.

Definition trim_start (s : string) : string :=
  skip_white_space (String.length s) s.

(** The value of a digit in a base up to 16. *)
Definition digit_in (base : Z) (c : ascii) : option Z :=
  let n := Z.of_nat (nat_of_ascii c) in
  let v := if (48 <=? n) && (n <=? 57) then n - 48
           else if (97 <=? n) && (n <=? 102) then n - 87
           else if (65 <=? n) && (n <=? 70) then n - 55
           else 16 in
  if v <? base then Some v else None.

(** The leading digits of [s] in [base]: how many there are, their value
    after [acc], and the text that follows them. *)
Fixpoint take_digits (base : Z) (count acc : Z) (s : string) : Z * Z * string :=
  match s with
  | EmptyString => (count, acc, s)
  | String c rest =>
      match digit_in base c with
      | Some v => take_digits base (count + 1) (acc * base + v) rest
      | None => (count, acc, s)
      end
  end.

(** An optional sign. *)
Definition take_sign (s : string) : Z * string :=
  match s with
  | String "+" rest => (1, rest)
  | String "-" rest => (-1, rest)
  | _ => (1, s)
  end.

(** [m * 10 ^ e], cut to an integer towards zero ([m] is not negative). *)
Definition scale (m e : Z) : Z :=
  if 0 <=? e then m * 10 ^ e else m / 10 ^ (- e).

(** StrDecimalLiteral: sign, digits, fraction and exponent.  The literal
    [Infinity] is left to the caller, for whom it is no integer. *)
Definition decimal_literal (s : string) : option (Z * string) :=
  let '(sign, s) := take_sign s in
  let '(whole, m, s) := take_digits 10 0 0 s in
  let '(fraction, m, s) :=
    match s with
    | String "." rest => take_digits 10 0 m rest
    | _ => (0, m, s)
    end in
  if (whole + fraction =? 0) then None
  else
    let '(e, s) :=
      match s with
      | String c rest =>
          if Ascii.eqb c "e" || Ascii.eqb c "E"
          then let '(esign, rest) := take_sign rest in
               let '(count, e, rest) := take_digits 10 0 0 rest in
               if count =? 0 then (0, s) else (esign * e, rest)
          else (0, s)
      | EmptyString => (0, s)
      end in
    Some (sign * scale m (e - fraction), s).

(** NonDecimalIntegerLiteral: [0b], [0o] or [0x] and digits, unsigned. *)
Definition radix_literal (s : string) : option (Z * string) :=
  match s with
  | String "0" (String p rest) =>
      let base := if Ascii.eqb p "x" || Ascii.eqb p "X" then 16
                  else if Ascii.eqb p "o" || Ascii.eqb p "O" then 8
                  else if Ascii.eqb p "b" || Ascii.eqb p "B" then 2
                  else 0 in
      let '(count, v, rest) := take_digits base 0 0 rest in
      if count =? 0 then None else Some (v, rest)
  | _ => None
  end.

(** The integer a string argument of [setHours] or [setMinutes] stands
    for: ToNumber of the string (white space around a numeric literal is
    dropped, the empty string is 0, anything else is NaN), cut towards
    zero. *)
Definition string_to_integer (s : string) : option Z :=
  let s := trim_start s in
  match s with
  | EmptyString => Some 0
  | _ =>
      let literal :=
        match radix_literal s with
        | Some r => Some r
        | None => decimal_literal s
        end in
      match literal with
      | Some (v, rest) =>
          match trim_start rest with
          | EmptyString => Some v
          | _ => None
          end
      | None => None
      end
  end.

(** [Date.parse] of the date-only form [YYYY-MM-DD], which is UTC
    midnight of that day.  The month is 01 to 12 and the day 01 to 31; a
    day past the end of the month runs over into the next month, as in V8.
    Other forms of date strings are not covered: they are NaN here. *)
Definition parse_date (s : string) : option Z :=
  match split "-" s with
  | [ys; ms; ds] =>
      match digits_value 0 ys, digits_value 0 ms, digits_value 0 ds with
      | Some y, Some m, Some d =>
          if (String.length ys =? 4)%nat && (String.length ms =? 2)%nat
             && (String.length ds =? 2)%nat
             && (1 <=? m) && (m <=? 12) && (1 <=? d) && (d <=? 31)
          then Some ((days_from_civil y m 1 + d - 1) * msPerDay)
          else None
      | _, _, _ => None
      end
  | _ => None
  end.

Definition with_zone (tza : Z -> bool -> Z) : runtime :=
  {| LocalTZA := tza;
     monthStart := month_start;
     Date_parse := parse_date;
     StringToInteger := string_to_integer |}.

(** A host on UTC. *)
Definition utc : runtime := with_zone (fun _ _ => 0).

(** 2023-03-26 01:00 UTC and 2023-10-29 01:00 UTC: when Central European
    Summer Time began and ended in 2023. *)
Definition summer_begin : Z := 1679792400000.
Definition summer_end : Z := 1698541200000.

(** Central European Time during 2023: UTC+2 in summer, UTC+1 otherwise.
    A local time that is skipped or repeated is read with the offset in
    force before the transition. *)
Definition cet_2023 (t : Z) (isUTC : bool) : Z :=
  if isUTC
  then if (summer_begin <=? t) && (t <? summer_end) then 7200000 else 3600000
  else if (summer_begin + 7200000 <=? t) && (t <? summer_end + 7200000)
       then 7200000 else 3600000.

(** A host in Berlin. *)
Definition berlin_2023 : runtime := with_zone cet_2023.
End Engine.

(* ===================================================================== *)
(** ** The codec in the words of the specification *)
(* ===================================================================== *)

(** Consecutive groups of seven tokens. *)
Fixpoint groups_of_7 (tokens : list string) : list (list string) :=
  match tokens with
  | t0 :: t1 :: t2 :: t3 :: t4 :: t5 :: t6 :: rest =>
      [t0; t1; t2; t3; t4; t5; t6] :: groups_of_7 rest
  | _ => []
  end.

(** One leg per group, the fields in the fixed order. *)
Definition leg_of_group (group : list string) : leg :=
  match group with
  | [t0; t1; t2; t3; t4; t5; t6] =>
      [ ("train", t0); ("start_stop", t1); ("start_time", t2);
        ("start_date", t3); ("arrival_stop", t4); ("arrival_time", t5);
        ("arrival_date", t6) ]
  | _ => []
  end.

Definition leg_key (i : nat) : string := "leg_" ++ string_of_nat i.

(** The legs under the keys [leg_start], [leg_(start+1)], ... *)
Fixpoint numbered (start : nat) (legs : list leg) : journey :=
  match legs with
  | [] => []
  | l :: rest => (leg_key start, l) :: numbered (S start) rest
  end.

Definition decode_spec (encoded : string) : journey :=
  let tokens := split ";" encoded in
  if Nat.eqb (Nat.modulo (List.length tokens) 7) 0
  then numbered 1 (map leg_of_group (groups_of_7 tokens))
  else [].

(** The Leg of the data model: seven strings. *)
Record Leg : Type := {
  train : string;
  start_stop : string;
  start_time : string;
  start_date : string;
  arrival_stop : string;
  arrival_time : string;
  arrival_date : string
}.

Definition Leg_fields (l : Leg) : list string :=
  [ train l; start_stop l; start_time l; start_date l;
    arrival_stop l; arrival_time l; arrival_date l ].

(** A Journey of the data model, as the object the handlers work on. *)
Definition journey_object (legs : list Leg) : journey :=
  numbered 1 (map (fun l => leg_of_group (Leg_fields l)) legs).

(** Modelled from the spec: the repository has no encoder (the encoded
    string is produced by the caller).  The wire format of the specification:
    the seven fields of each leg in the fixed order, leg after leg, joined
    by [;]. *)
Definition encode (legs : list Leg) : string :=
  join ";" (flat_map Leg_fields legs).

Definition no_delimiter (l : Leg) : Prop :=
  Forall (fun field => contains_char ";" field = false) (Leg_fields l).

(* ===================================================================== *)
(** ** The vocabulary of the properties *)
(* ===================================================================== *)

(** The name contains the letters b, u, s in a row, each in either case. *)
Definition mentions_bus (name : string) : Prop :=
  exists (before : string) (c1 c2 c3 : ascii) (after : string),
    name = (before ++ String c1 (String c2 (String c3 after)))%string
    /\ (c1 = "b" \/ c1 = "B")%char
    /\ (c2 = "u" \/ c2 = "U")%char
    /\ (c3 = "s" \/ c3 = "S")%char.

(** The leg has a train name that mentions a bus. *)
Definition bus_leg (kv : string * leg) : Prop :=
  exists name, obj_get "train" (snd kv) = Some name /\ mentions_bus name.

(** The request got past the emptiness check and both validations. *)
Definition validated (type : option string) (v : jsvalue) : Prop :=
  is_empty_object v = Ok false
  /\ leg_messages v = false
  /\ validateType type = true.

(** The request got past validation, the time window and the
    rail-replacement check. *)
Definition passes_gates (rt : runtime) (e : payouts_env) (type : option string)
  (v : jsvalue) : Prop :=
  validated type v
  /\ checkTimeframe rt (Date_now e) (properties v) = Ok None
  /\ checkForRps (properties v) = Ok false.

(** diffDays of the specification: the time from [now] to the departure
    instant [d], in days. *)
Definition days_until (now d : Z) : Q :=
  (inject_Z (d - now) / inject_Z msPerDay)%Q.

(** The instant with the same local time of day on the next calendar day. *)
Definition next_day (rt : runtime) (t : Z) : Z :=
  UTC rt (LocalTime rt t + msPerDay).

(** The observed arrival after the midnight correction. *)
Definition corrected_arrival (rt : runtime) (s r : Z) : Z :=
  if (r <? s - 4 * msPerHour)%Z then next_day rt r else r.

(** The request reaches the delay computation with scheduled arrival [s]
    and observed arrival [r]. *)
Definition delay_inputs (rt : runtime) (zugfinder : journey -> completion journey)
  (body : delay_body) (s r : Z) : Prop :=
  exists journey response,
    delay_journey body = Ok journey
    /\ keys journey <> []
    /\ Forall (fun kv => validateLeg (snd kv) = true) journey
    /\ retrieveArrivalDate rt journey = Ok (Some s)
    /\ zugfinder journey = Ok response
    /\ retrieveArrivalDate rt response = Ok (Some r).

(** Two legs with the same value for every field name. *)
Definition same_fields (l1 l2 : leg) : Prop :=
  forall k, obj_get k l1 = obj_get k l2.

(** Two journeys equal as mappings from leg keys to leg field values. *)
Definition same_journey (j1 j2 : journey) : Prop :=
  forall k,
    match obj_get k j1, obj_get k j2 with
    | Some l1, Some l2 => same_fields l1 l2
    | None, None => True
    | _, _ => False
    end.

(** No property name occurs twice, in the journey or in a leg. *)
Definition unique_keys (j : journey) : Prop :=
  NoDup (keys j) /\ Forall (fun kv => NoDup (keys (snd kv))) j.

(** The leg keys, and the field names of each leg, come in the same order. *)
Definition same_order (j1 j2 : journey) : Prop :=
  Forall2 (fun kv1 kv2 => fst kv1 = fst kv2 /\ keys (snd kv1) = keys (snd kv2))
          j1 j2.

(* ===================================================================== *)
(** ** Sample requests *)
(* ===================================================================== *)

Definition ice_1601 (arrival : string) : Leg :=
  {| train := "ICE 1601"; start_stop := "Berlin Hbf"; start_time := "19:30";
     start_date := "2023-03-25"; arrival_stop := "Muenchen Hbf";
     arrival_time := arrival; arrival_date := "2023-03-25" |}.

(** A booked journey that arrives at 23:50. *)
Definition booked : journey := journey_object [ice_1601 "23:50"].

(** What the tracking service reports for it when the train arrives after
    midnight: the time of the arrival under the date of the day before. *)
Definition reported (arrival : string) : journey :=
  journey_object [ice_1601 arrival].

(** A journey whose only leg is filed under [leg_2]. *)
Definition gap_journey : journey :=
  [("leg_2", leg_of_group (Leg_fields (ice_1601 "23:50")))].

(** A journey with legs under [leg_1] and [leg_3] and none under [leg_2]. *)
Definition skipped_journey : journey :=
  [("leg_1", leg_of_group (Leg_fields (ice_1601 "23:50")));
   ("leg_3", leg_of_group (Leg_fields (ice_1601 "23:50")))].

(** The booked journey with the first two fields of its leg swapped. *)
Definition booked_reordered : journey :=
  [("leg_1",
    [ ("start_stop", "Berlin Hbf"); ("train", "ICE 1601");
      ("start_time", "19:30"); ("start_date", "2023-03-25");
      ("arrival_stop", "Muenchen Hbf"); ("arrival_time", "23:50");
      ("arrival_date", "2023-03-25") ])].

(** 2023-03-22 12:00 UTC. *)
Definition noon_2023_03_22 : Z := 1679486400000.

(** An empty cache and a prediction service that answers [p]. *)
Definition quiet_env (now : Z) (p : Q) : payouts_env :=
  {| Date_now := now; cache := fun _ => None; prediction := fun _ => Ok (Some p) |}.

Definition encoded_booked : string :=
  "ICE 1601;Berlin Hbf;19:30;2023-03-25;Muenchen Hbf;23:50;2023-03-25".

Definition small_request : payouts_body :=
  {| body_type := Some "small"; body_journey := JString encoded_booked |}.

(** A matrix whose entry is its row number. *)
Definition row_matrix (tier : string) (row : Z) : option Z := Some row.

(** The booked journey as an object, sent with the type [["all"]]: an
    array holding the string "all". *)
Definition array_typed_request : payouts_request :=
  {| request_type := Some (JsonArray [JsonString "all"]);
     request_journey := JObject booked |}.

(* ===================================================================== *)
(** ** The testing endpoints *)
(* ===================================================================== *)

(** A request to one of the testing endpoints.  [req.body.delay] is compared
    with [=== true] and [=== false]: it is one of the two booleans
    ([Some]) or anything else ([None]). *)
Inductive test_request : Type :=
| DelayOracleTesting
| ChangeDelay (delay : option bool)
| GetDelay.

Inductive test_response : Type :=
| Json (r : delay_response)
| Text (message : string).

Definition string_of_bool (b : bool) : string := if b then "true" else "false".

(** [app.post('/delayOracleTesting', ...)] *)
Definition post_delayOracleTesting (BOOL_DELAY : bool) : delay_response :=
  let delay := if BOOL_DELAY then 62%Q else 2%Q in
  {| delay_status := STATUS_OK; delay := Some delay |}.

(** [app.post('/changeDelay', ...)]: the new value of [BOOL_DELAY] and the
    text sent. *)
Definition post_changeDelay (BOOL_DELAY : bool) (delay : option bool)
  : bool * string :=
  match delay with
  | Some true => (true, "changed delay to true")
  | Some false => (false, "changed delay to false")
  | None => (BOOL_DELAY, "delay has to be true or false")
  end.

(** [app.get('/getDelay', ...)] *)
Definition get_getDelay (BOOL_DELAY : bool) : string :=
  ("BOOL_DLEAY is currently set to: " ++ string_of_bool BOOL_DELAY)%string.

(** One request against the global [BOOL_DELAY]. *)
Definition test_step (BOOL_DELAY : bool) (req : test_request)
  : bool * test_response :=
  match req with
  | DelayOracleTesting => (BOOL_DELAY, Json (post_delayOracleTesting BOOL_DELAY))
  | ChangeDelay delay =>
      let '(b, message) := post_changeDelay BOOL_DELAY delay in (b, Text message)
  | GetDelay => (BOOL_DELAY, Text (get_getDelay BOOL_DELAY))
  end.

(** The requests served one after the other: the final [BOOL_DELAY] and the
    responses. *)
Fixpoint serve (BOOL_DELAY : bool) (reqs : list test_request)
  : bool * list test_response :=
  match reqs with
  | [] => (BOOL_DELAY, [])
  | req :: rest =>
      let '(b, response) := test_step BOOL_DELAY req in
      let '(b', responses) := serve b rest in
      (b', response :: responses)
  end.

(** The request sets [BOOL_DELAY]. *)
Definition boolean_change (req : test_request) : bool :=
  match req with
  | ChangeDelay (Some _) => true
  | _ => false
  end.

(** The value [BOOL_DELAY] has when the server starts. *)
Definition BOOL_DELAY_initial : bool := false.

(* ===================================================================== *)
(** ** telegram.js *)
(* ===================================================================== *)

(** [text.replaceAll(pattern, replacement)] for a one-character pattern. *)
Fixpoint replaceAll (pattern : ascii) (replacement : string) (text : string)
  : string :=
  match text with
  | EmptyString => EmptyString
  | String c rest =>
      if Ascii.eqb c pattern
      then (replacement ++ replaceAll pattern replacement rest)%string
      else String c (replaceAll pattern replacement rest)
  end.

Module Telegram.

(** [format(text)] *)
Definition format (text : string) : string :=
  let text := replaceAll "." (escaped ".") text in
  let text := replaceAll "[" (escaped "[") text in
  let text := replaceAll "]" (escaped "]") text in
  let text := replaceAll "!" (escaped "!") text in
  let text := replaceAll "?" (escaped "?") text in
  let text := replaceAll ":" (escaped ":") text in
  let text := replaceAll "%" (escaped "%") text in
  let text := replaceAll "+" (escaped "+") text in
  let text := replaceAll "&" (escaped "&") text in
  let text := replaceAll "$" (escaped "$") text in
  let text := replaceAll "-" (escaped "-") text in
  let text := replaceAll "{" (escaped "{") text in
  let text := replaceAll "}" (escaped "}") text in
  let text := replaceAll "(" (escaped "(") text in
  let text := replaceAll ")" (escaped ")") text in
  text.

(** String concatenation with a value that may be [undefined]. *)
Definition text_of (v : option string) : string :=
  match v with
  | Some s => s
  | None => "undefined"
  end.

(** [retrieveStops(journey)]: reading [start_stop] of a missing [leg_1] is
    a TypeError. *)
Definition retrieveStops (journey : journey) : completion string :=
  match obj_get "leg_1" journey with
  | None => Throw TypeError
  | Some leg_1 =>
      let stops := (EmptyString ++ text_of (obj_get "start_stop" leg_1))%string in
      Ok (fold_left
            (fun stops kv =>
               (stops ++ " - " ++ text_of (obj_get "arrival_stop" (snd kv)))%string)
            journey stops)
  end.

End Telegram.

(** The characters [format] escapes. *)
Definition markdown_special (c : ascii) : bool :=
  existsb (Ascii.eqb c)
    [ "."; "["; "]"; "!"; "?"; ":"; "%"; "+"; "&"; "$"; "-"; "{"; "}"; "("; ")" ]%char.

(** Escaping in one pass: a backslash before every special character. *)
Fixpoint escape_markdown (text : string) : string :=
  match text with
  | EmptyString => EmptyString
  | String c rest =>
      if markdown_special c
      then String backslash (String c (escape_markdown rest))
      else String c (escape_markdown rest)
  end.

(* ===================================================================== *)
(** ** More vocabulary *)
(* ===================================================================== *)

(** All field values of a journey, leg after leg, in property order. *)
Definition field_values (j : journey) : list string :=
  flat_map (fun kv => map snd (snd kv)) j.

(** What validator.js asks of the seven tokens of one leg. *)
Definition valid_group (group : list string) : bool :=
  match group with
  | [t0; t1; t2; t3; t4; t5; t6] =>
      negb (String.eqb t0 "") && negb (String.eqb t1 "")
      && time_regex t2 && date_regex t3
      && negb (String.eqb t4 "")
      && time_regex t5 && date_regex t6
  | _ => false
  end.

(** The local calendar day on which UTC midnight of day [D] falls, on a
    host [off] milliseconds ahead of UTC (less than a day either way). *)
Definition local_day (off D : Z) : Z :=
  if (0 <=? off)%Z then D else (D - 1)%Z.

(** A host five hours behind UTC all year. *)
Definition five_hours_west : runtime := Engine.with_zone (fun _ _ => (-18000000)%Z).

(** Reading back what [json_escape] wrote: the byte the text begins with,
    and the text after its escape.  Nothing is read at a closing quote. *)
Definition hex_value (c : ascii) : nat :=
  let n := nat_of_ascii c in
  if (n <? 58)%nat then (n - 48)%nat else (n - 87)%nat.

Definition json_unescape_head (s : string) : option (ascii * string) :=
  match s with
  | EmptyString => None
  | String c rest =>
      if Ascii.eqb c dquote then None
      else if Ascii.eqb c backslash then
        match rest with
        | EmptyString => None
        | String x rest' =>
            if Ascii.eqb x "u" then
              match rest' with
              | String _ (String _ (String h (String l rest''))) =>
                  Some (ascii_of_nat (16 * hex_value h + hex_value l), rest'')
              | _ => None
              end
            else if Ascii.eqb x "b" then Some (ascii_of_nat 8, rest')
            else if Ascii.eqb x "t" then Some (ascii_of_nat 9, rest')
            else if Ascii.eqb x "n" then Some (ascii_of_nat 10, rest')
            else if Ascii.eqb x "f" then Some (ascii_of_nat 12, rest')
            else if Ascii.eqb x "r" then Some (ascii_of_nat 13, rest')
            else Some (x, rest')
        end
      else Some (c, rest)
  end.

(** One member of an object as [json_object] writes it. *)
Definition json_member {A : Type} (member : A -> string) (kv : string * A)
  : string :=
  (json_quote (fst kv) ++ ":" ++ member (snd kv))%string.

(* ===================================================================== *)
(** * Properties *)
(* ===================================================================== *)

Local Open Scope nat_scope.

(* ===================================================================== *)
(** ** sha256: the test vectors of FIPS 180-4 *)
(* ===================================================================== *)

Example sha256_empty :
  sha256 "" = "e3b0c44298fc1c149afbf4c8996fb92427ae41e4649b934ca495991b7852b855".
Proof. vm_compute. reflexivity. Qed.

Example sha256_abc :
  sha256 "abc" = "ba7816bf8f01cfea414140de5dae2223b00361a396177a9cb410ff61f20015ad".
Proof. vm_compute. reflexivity. Qed.

Example sha256_two_blocks :
  sha256 "abcdbcdecdefdefgefghfghighijhijkijkljklmklmnlmnomnopnopq"
  = "248d6a61d20638b8e5c026930c3e6039a33ce45964ff2167f6ecedd419db06c1".
Proof. vm_compute. reflexivity. Qed.

(* ===================================================================== *)
(** ** Strings and objects: basic facts *)
(* ===================================================================== *)

Lemma split_not_nil (sep : ascii) (s : string) : split sep s <> [].
Proof.
  destruct s as [|c rest]; simpl; [discriminate|].
  destruct (Ascii.eqb c sep); [discriminate|].
  destruct (split sep rest); discriminate.
Qed.

Lemma split_no_separator (sep : ascii) (s : string) :
  contains_char sep s = false -> split sep s = [s].
Proof.
  induction s as [|c rest IH]; simpl; intros H; [reflexivity|].
  apply orb_false_iff in H as [Hc Hrest].
  rewrite Hc, (IH Hrest). reflexivity.
Qed.

Lemma split_append (sep : ascii) (tok rest : string) :
  contains_char sep tok = false ->
  split sep (tok ++ String sep rest) = tok :: split sep rest.
Proof.
  induction tok as [|c tok IH]; simpl; intros H.
  - rewrite Ascii.eqb_refl. reflexivity.
  - apply orb_false_iff in H as [Hc Htok].
    rewrite Hc, (IH Htok). reflexivity.
Qed.

Lemma split_join (sep : ascii) (tokens : list string) :
  tokens <> [] ->
  Forall (fun tok => contains_char sep tok = false) tokens ->
  split sep (join sep tokens) = tokens.
Proof.
  induction tokens as [|tok rest IH]; intros Hne Hall; [congruence|].
  inversion Hall as [|? ? Htok Hrest]; subst.
  destruct rest as [|tok' rest'].
  - simpl. apply split_no_separator, Htok.
  - change (join sep (tok :: tok' :: rest'))
      with (tok ++ String sep (join sep (tok' :: rest')))%string.
    rewrite split_append by exact Htok.
    rewrite IH; [reflexivity | discriminate | exact Hrest].
Qed.

Lemma string_of_nat_inj (n m : nat) : string_of_nat n = string_of_nat m -> n = m.
Proof.
  unfold string_of_nat. intros H.
  apply Unsigned.to_uint_inj.
  assert (Some (Nat.to_uint n) = Some (Nat.to_uint m)) as E
    by (rewrite <- !NilEmpty.usu, H; reflexivity).
  now inversion E.
Qed.

Lemma leg_key_inj (n m : nat) : leg_key n = leg_key m -> n = m.
Proof.
  unfold leg_key. simpl. intros H. apply string_of_nat_inj. congruence.
Qed.

Lemma obj_set_fresh {A : Type} (k : string) (v : A) (o : obj A) :
  ~ In k (keys o) -> obj_set k v o = o ++ [(k, v)].
Proof.
  induction o as [|[k' v'] rest IH]; simpl; intros Hk; [reflexivity|].
  destruct (String.eqb_spec k k') as [->|_]; [tauto|].
  rewrite IH by tauto. reflexivity.
Qed.

Lemma keys_app {A : Type} (o1 o2 : obj A) : keys (o1 ++ o2) = keys o1 ++ keys o2.
Proof. apply map_app. Qed.

(* ===================================================================== *)
(** ** decode *)
(* ===================================================================== *)

Lemma build_legs_map (values : list string) (n : nat) :
  build_legs values n = map (fun i => leg_at values (i * 7)) (seq 0 n).
Proof.
  unfold build_legs.
  enough (forall l acc,
    fold_left (fun legs i => legs ++ [leg_at values (i * 7)]) l acc
    = acc ++ map (fun i => leg_at values (i * 7)) l) as H by apply H.
  induction l as [|i l IH]; intros acc; simpl.
  - now rewrite app_nil_r.
  - rewrite IH, <- app_assoc. reflexivity.
Qed.

Lemma number_legs_fold (legs : list leg) (l : list nat) (acc : journey) :
  NoDup l ->
  (forall i, In i l -> ~ In (leg_key (i + 1)) (keys acc)) ->
  fold_left (fun j i => obj_set ("leg_" ++ string_of_nat (i + 1)) (nth i legs []) j) l acc
  = acc ++ map (fun i => (leg_key (i + 1), nth i legs [])) l.
Proof.
  revert acc. induction l as [|i l IH]; intros acc Hnd Hfresh; simpl.
  - now rewrite app_nil_r.
  - inversion Hnd as [|? ? Hi Hl]; subst.
    fold (leg_key (i + 1)).
    rewrite obj_set_fresh by (apply Hfresh; now left).
    rewrite IH; [now rewrite <- app_assoc | exact Hl |].
    intros i' Hi' Hin. rewrite keys_app in Hin.
    apply in_app_or in Hin as [Hin|Hin].
    + apply (Hfresh i'); [now right | exact Hin].
    + simpl in Hin. destruct Hin as [E|[]].
      apply leg_key_inj in E. assert (i = i') by lia. subst. contradiction.
Qed.

Lemma number_legs_map (legs : list leg) (n : nat) :
  number_legs legs n = map (fun i => (leg_key (i + 1), nth i legs [])) (seq 0 n).
Proof.
  unfold number_legs. rewrite number_legs_fold; [reflexivity | apply seq_NoDup |].
  intros i _ [].
Qed.

Lemma numbered_map (legs : list leg) (start : nat) :
  numbered start legs
  = map (fun i => (leg_key (i + start), nth i legs [])) (seq 0 (List.length legs)).
Proof.
  revert start. induction legs as [|l rest IH]; intros start; [reflexivity|].
  simpl. f_equal. rewrite IH, <- seq_shift, map_map.
  apply map_ext. intros i. now rewrite Nat.add_succ_r.
Qed.

Lemma groups_of_7_legs (n : nat) : forall values,
  List.length values = 7 * n ->
  map leg_of_group (groups_of_7 values)
  = map (fun i => leg_at values (i * 7)) (seq 0 n).
Proof.
  induction n as [|n IH]; intros values Hlen.
  - destruct values; [reflexivity | discriminate].
  - destruct values as [|t0 [|t1 [|t2 [|t3 [|t4 [|t5 [|t6 rest]]]]]]];
      try (simpl in Hlen; lia).
    change (groups_of_7 (t0 :: t1 :: t2 :: t3 :: t4 :: t5 :: t6 :: rest))
      with ([t0; t1; t2; t3; t4; t5; t6] :: groups_of_7 rest).
    rewrite map_cons.
    rewrite (IH rest) by (cbn [List.length] in Hlen; lia).
    change (seq 0 (S n)) with (0 :: seq 1 n).
    rewrite <- seq_shift, map_cons, map_map.
    apply f_equal2; [reflexivity|]. apply map_ext. intros i.
    unfold leg_at, at_index.
    replace (S i * 7) with (7 + i * 7) by lia.
    repeat match goal with
           | |- context [7 + ?a + ?b] => replace (7 + a + b) with (7 + (a + b)) by lia
           end.
    reflexivity.
Qed.

Lemma decode_reads_in_range (values : list string) (i k : nat) :
  Nat.modulo (List.length values) 7 = 0 ->
  i < Nat.div (List.length values) 7 -> k < 7 ->
  i * 7 + k < List.length values.
Proof.
  intros Hmod Hi Hk.
  pose proof (Nat.div_mod_eq (List.length values) 7) as E.
  rewrite Hmod in E. lia.
Qed.

Lemma decode_refines_spec (encoded : string) :
  decode encoded = decode_spec encoded.
Proof.
  unfold decode, decode_spec.
  set (values := split ";" encoded).
  destruct (Nat.eqb_spec (Nat.modulo (List.length values) 7) 0) as [Hmod|Hmod];
    simpl; [|reflexivity].
  set (n := Nat.div (List.length values) 7).
  assert (List.length values = 7 * n) as Hlen.
  { pose proof (Nat.div_mod_eq (List.length values) 7) as E.
    rewrite Hmod in E. unfold n. lia. }
  rewrite number_legs_map, build_legs_map, (groups_of_7_legs n values Hlen).
  rewrite numbered_map, length_map, length_seq.
  apply map_ext. intros i. now rewrite Nat.add_comm.
Qed.

Lemma groups_of_7_concat (n : nat) : forall tokens,
  List.length tokens = 7 * n -> List.concat (groups_of_7 tokens) = tokens.
Proof.
  induction n as [|n IH]; intros tokens Hlen.
  - destruct tokens; [reflexivity | discriminate].
  - destruct tokens as [|t0 [|t1 [|t2 [|t3 [|t4 [|t5 [|t6 rest]]]]]]];
      try (simpl in Hlen; lia).
    change (groups_of_7 (t0 :: t1 :: t2 :: t3 :: t4 :: t5 :: t6 :: rest))
      with ([t0; t1; t2; t3; t4; t5; t6] :: groups_of_7 rest).
    cbn [List.concat app]. rewrite (IH rest); [reflexivity|].
    cbn [List.length] in Hlen. lia.
Qed.

Lemma keys_numbered (legs : list leg) (start : nat) :
  keys (numbered start legs) = map leg_key (seq start (List.length legs)).
Proof.
  revert start. induction legs as [|l rest IH]; intros start; [reflexivity|].
  cbn [numbered keys map List.length seq fst]. f_equal. apply IH.
Qed.

Lemma obj_get_numbered (legs : list leg) (start i : nat) :
  obj_get (leg_key (start + i)) (numbered start legs) = nth_error legs i.
Proof.
  revert start i. induction legs as [|l rest IH]; intros start i.
  - now destruct i.
  - cbn [numbered obj_get]. destruct i as [|i].
    + rewrite Nat.add_0_r, String.eqb_refl. reflexivity.
    + destruct (String.eqb_spec (leg_key (start + S i)) (leg_key start)) as [E|_].
      * apply leg_key_inj in E. lia.
      * rewrite <- Nat.add_succ_comm. apply IH.
Qed.

(** C5. [decode], applied to a string, never throws.  When the number of
    [;]-separated tokens is not a multiple of 7 it returns the empty
    journey; otherwise it cuts the tokens into consecutive groups of 7,
    makes one leg of each group with the fields train, start_stop,
    start_time, start_date, arrival_stop, arrival_time, arrival_date in this
    order, and files the legs in their order under [leg_1] .. [leg_n]. *)
Theorem decode_groups_of_seven (encoded : string) :
  let tokens := split ";" encoded in
  call_decode (JString encoded) = Ok (decode encoded)
  /\ decode encoded = decode_spec encoded
  /\ (Nat.modulo (List.length tokens) 7 <> 0 -> decode encoded = [])
  /\ (forall n, List.length tokens = 7 * n ->
        List.concat (groups_of_7 tokens) = tokens
        /\ keys (decode encoded) = map leg_key (seq 1 n)
        /\ forall i, i < n ->
             obj_get (leg_key (i + 1)) (decode encoded)
             = Some (leg_at tokens (i * 7))).
Proof.
  intros tokens. split; [reflexivity|]. split; [apply decode_refines_spec|].
  rewrite decode_refines_spec. unfold decode_spec. fold tokens. split.
  - intros Hmod. apply Nat.eqb_neq in Hmod. now rewrite Hmod.
  - intros n Hlen.
    replace (Nat.modulo (List.length tokens) 7) with 0
      by (rewrite Hlen, Nat.mul_comm; symmetry; apply Nat.Div0.mod_mul).
    cbn [Nat.eqb].
    split; [now apply (groups_of_7_concat n)|].
    rewrite (groups_of_7_legs n tokens Hlen). split.
    + now rewrite keys_numbered, length_map, length_seq.
    + intros i Hi. rewrite (Nat.add_comm i 1), obj_get_numbered.
      rewrite nth_error_map, nth_error_nth' with (d := 0)
        by (now rewrite length_seq).
      now rewrite seq_nth.
Qed.

Example decode_short : decode "IC 705;Leipzig HBF" = [].
Proof. reflexivity. Qed.

Lemma groups_of_7_fields (legs : list Leg) :
  groups_of_7 (flat_map Leg_fields legs) = map Leg_fields legs.
Proof.
  induction legs as [|l rest IH]; [reflexivity|].
  cbn [flat_map map]. unfold Leg_fields at 1. cbn [app].
  cbn [groups_of_7]. now rewrite IH.
Qed.

Lemma length_fields (legs : list Leg) :
  List.length (flat_map Leg_fields legs) = 7 * List.length legs.
Proof.
  induction legs as [|l rest IH]; [reflexivity|].
  cbn [flat_map]. rewrite length_app, IH. cbn [Leg_fields List.length]. lia.
Qed.

Lemma fields_no_delimiter (legs : list Leg) :
  Forall no_delimiter legs ->
  Forall (fun tok => contains_char ";" tok = false) (flat_map Leg_fields legs).
Proof.
  induction 1 as [|l rest Hl _ IH]; [constructor|].
  cbn [flat_map]. apply Forall_app. split; [exact Hl | exact IH].
Qed.

(** C9. Decoding is a left inverse of encoding: for every sequence of legs
    whose field values contain no [;], joining the seven fields of each leg
    in the fixed order with [;] and decoding the result yields the journey
    object with these legs under [leg_1] .. [leg_n]. *)
Theorem decode_encode (legs : list Leg) :
  Forall no_delimiter legs ->
  decode (encode legs) = journey_object legs.
Proof.
  intros Hclean. rewrite decode_refines_spec.
  unfold decode_spec, encode, journey_object.
  destruct legs as [|l rest]; [reflexivity|].
  rewrite split_join.
  - rewrite length_fields.
    replace (Nat.modulo (7 * List.length (l :: rest)) 7) with 0
      by (symmetry; rewrite Nat.mul_comm; apply Nat.Div0.mod_mul).
    cbn [Nat.eqb]. now rewrite groups_of_7_fields, map_map.
  - discriminate.
  - apply fields_no_delimiter, Hclean.
Qed.

Lemma decode_encode_witness :
  decode (encode [ice_1601 "23:50"; ice_1601 "00:10"])
  = journey_object [ice_1601 "23:50"; ice_1601 "00:10"].
Proof.
  apply decode_encode. repeat constructor.
Defined.

(* ===================================================================== *)
(** ** checkForRps *)
(* ===================================================================== *)

Lemma lower_ascii_letter (lower upper c : ascii) :
  (97 <= nat_of_ascii lower <= 122) ->
  nat_of_ascii upper + 32 = nat_of_ascii lower ->
  lower_ascii c = lower <-> (c = lower \/ c = upper).
Proof.
  intros Hrange Hcase. unfold lower_ascii.
  destruct ((65 <=? nat_of_ascii c) && (nat_of_ascii c <=? 90)) eqn:E.
  - apply andb_true_iff in E as [E1 E2].
    apply Nat.leb_le in E1, E2.
    split.
    + intros H. right.
      apply (f_equal nat_of_ascii) in H.
      rewrite nat_ascii_embedding in H by lia.
      rewrite <- (ascii_nat_embedding c), <- (ascii_nat_embedding upper).
      f_equal. lia.
    + intros [->| ->]; [lia|].
      rewrite Hcase. apply ascii_nat_embedding.
  - split; [now left|].
    intros [H|H]; [exact H|subst c].
    apply andb_false_iff in E.
    destruct E as [E|E]; [apply Nat.leb_gt in E | apply Nat.leb_gt in E]; lia.
Qed.

Lemma starts_with_bus (s : string) :
  starts_with (toLowerCase s) "bus" = true <->
  exists c1 c2 c3 after,
    s = String c1 (String c2 (String c3 after))
    /\ lower_ascii c1 = "b"%char /\ lower_ascii c2 = "u"%char
    /\ lower_ascii c3 = "s"%char.
Proof.
  split.
  - destruct s as [|c1 [|c2 [|c3 after]]]; cbn [toLowerCase starts_with];
      rewrite ?andb_false_r; try discriminate.
    rewrite !andb_true_iff, !Ascii.eqb_eq. intros (H1 & H2 & H3 & _).
    exists c1, c2, c3, after. now repeat split.
  - intros (c1 & c2 & c3 & after & -> & H1 & H2 & H3).
    cbn [toLowerCase starts_with]. rewrite H1, H2, H3.
    now destruct (toLowerCase after).
Qed.

Lemma includes_bus (name : string) :
  includes (toLowerCase name) "bus" = true <-> mentions_bus name.
Proof.
  assert (forall c, lower_ascii c = "b"%char <-> (c = "b" \/ c = "B")%char) as Hb
    by (intros c; apply lower_ascii_letter; [cbv; lia | reflexivity]).
  assert (forall c, lower_ascii c = "u"%char <-> (c = "u" \/ c = "U")%char) as Hu
    by (intros c; apply lower_ascii_letter; [cbv; lia | reflexivity]).
  assert (forall c, lower_ascii c = "s"%char <-> (c = "s" \/ c = "S")%char) as Hs
    by (intros c; apply lower_ascii_letter; [cbv; lia | reflexivity]).
  induction name as [|c rest IH].
  - split; [discriminate|].
    intros (before & c1 & c2 & c3 & after & E & _).
    destruct before; discriminate.
  - change (includes (toLowerCase (String c rest)) "bus")
      with (starts_with (toLowerCase (String c rest)) "bus"
            || includes (toLowerCase rest) "bus").
    rewrite orb_true_iff, starts_with_bus, IH. split.
    + intros [(c1 & c2 & c3 & after & E & H1 & H2 & H3)|H].
      * exists "", c1, c2, c3, after.
        rewrite <- Hb, <- Hu, <- Hs. now repeat split.
      * destruct H as (before & c1 & c2 & c3 & after & -> & H).
        now exists (String c before), c1, c2, c3, after.
    + intros (before & c1 & c2 & c3 & after & E & H1 & H2 & H3).
      destruct before as [|c0 before].
      * left. exists c1, c2, c3, after.
        rewrite Hb, Hu, Hs. now repeat split.
      * right. injection E as -> ->.
        now exists before, c1, c2, c3, after.
Qed.

Lemma checkForRps_total (j : journey) :
  Forall (fun kv => obj_get "train" (snd kv) <> None) j ->
  checkForRps j = Ok true \/ checkForRps j = Ok false.
Proof.
  induction 1 as [|[k l] rest Hl _ IH]; simpl; [now right|].
  simpl in Hl. destruct (obj_get "train" l); [|congruence].
  destruct (includes (toLowerCase s) "bus"); [now left | exact IH].
Qed.

Lemma checkForRps_true (j : journey) :
  Forall (fun kv => obj_get "train" (snd kv) <> None) j ->
  checkForRps j = Ok true <-> Exists bus_leg j.
Proof.
  induction 1 as [|[k l] rest Hl _ IH]; simpl.
  - split; [discriminate | intros H; inversion H].
  - simpl in Hl. destruct (obj_get "train" l) as [name|] eqn:Hname; [|congruence].
    destruct (includes (toLowerCase name) "bus") eqn:Hbus.
    + split; [|reflexivity]. intros _. left. exists name.
      split; [exact Hname | now apply includes_bus].
    + rewrite IH. split; [now right|].
      intros H. inversion H as [? ? (name' & Hn & Hm)|]; subst; [|assumption].
      simpl in Hn. rewrite Hname in Hn. injection Hn as <-.
      apply includes_bus in Hm. congruence.
Qed.

(* ===================================================================== *)
(** ** Numbers *)
(* ===================================================================== *)

Lemma num_ltb_lt (x y : Q) : num_ltb (Some x) (Some y) = true <-> (x < y)%Q.
Proof.
  unfold num_ltb. rewrite negb_true_iff. split.
  - intros H. apply Qnot_le_lt. intros Hle.
    apply Qle_bool_iff in Hle. congruence.
  - intros H. destruct (Qle_bool y x) eqn:E; [|reflexivity].
    apply Qle_bool_iff in E. exfalso. exact (Qlt_not_le _ _ H E).
Qed.

Lemma num_leb_le (x y : Q) : num_leb (Some x) (Some y) = true <-> (x <= y)%Q.
Proof. apply Qle_bool_iff. Qed.

Lemma num_ltb_ge (x y : Q) : num_ltb (Some x) (Some y) = false <-> (y <= x)%Q.
Proof.
  unfold num_ltb. rewrite negb_false_iff. apply Qle_bool_iff.
Qed.

Lemma num_leb_gt (x y : Q) : num_leb (Some x) (Some y) = false <-> (y < x)%Q.
Proof.
  rewrite <- num_ltb_lt. unfold num_leb, num_ltb.
  destruct (Qle_bool x y); simpl; intuition congruence.
Qed.

(* ===================================================================== *)
(** ** checkTimeframe *)
(* ===================================================================== *)

Section Timeframe.
Variable rt : runtime.
Variables (now d : Z) (j : journey).
Hypothesis Hdeparture : retrieveDepartureDate rt j = Ok (Some d).

Local Abbreviation diff := (days_until now d).

Lemma diffDays_value : exists q, diffDays (Some d) now = Some q /\ (q == diff)%Q.
Proof.
  eexists. split; [reflexivity|]. unfold days_until.
  apply Qdiv_comp; reflexivity.
Qed.

Lemma checkTimeframe_value :
  checkTimeframe rt now j =
  if Qle_bool diff 1 || Qle_bool 10 diff then Ok (Some true) else Ok None.
Proof.
  unfold checkTimeframe. rewrite Hdeparture. cbn [bind].
  destruct diffDays_value as (q & Hq & Eq). rewrite Hq.
  unfold num_geb, num_leb, TIME_MIN, TIME_MAX.
  assert (Qle_bool q 1 = Qle_bool diff 1) as ->.
  { apply eq_true_iff_eq. rewrite !Qle_bool_iff, Eq. reflexivity. }
  assert (Qle_bool 10 q = Qle_bool 10 diff) as ->.
  { apply eq_true_iff_eq. rewrite !Qle_bool_iff, Eq. reflexivity. }
  reflexivity.
Qed.

Lemma checkTimeframe_out :
  checkTimeframe rt now j = Ok (Some true) <-> (diff <= 1 \/ 10 <= diff)%Q.
Proof.
  rewrite checkTimeframe_value, <- !Qle_bool_iff, <- orb_true_iff.
  destruct (Qle_bool diff 1 || Qle_bool 10 diff); split;
    congruence || discriminate.
Qed.

Lemma checkTimeframe_in :
  checkTimeframe rt now j = Ok None <-> (1 < diff /\ diff < 10)%Q.
Proof.
  rewrite checkTimeframe_value.
  destruct (Qle_bool diff 1) eqn:E1; [|destruct (Qle_bool 10 diff) eqn:E2];
    cbn [orb]; (split; [try discriminate | ]).
  - intros [H _]. apply Qle_bool_iff in E1.
    exfalso. exact (Qlt_not_le _ _ H E1).
  - intros [_ H]. apply Qle_bool_iff in E2.
    exfalso. exact (Qlt_not_le _ _ H E2).
  - intros _. split; apply Qnot_le_lt; intros H; apply Qle_bool_iff in H;
      congruence.
  - reflexivity.
Qed.

Lemma diff_le_1 : (diff <= 1)%Q <-> (d - now <= 86400000)%Z.
Proof. unfold days_until, Qle, Qdiv, Qmult, Qinv, inject_Z; simpl. lia. Qed.

Lemma diff_ge_10 : (10 <= diff)%Q <-> (864000000 <= d - now)%Z.
Proof. unfold days_until, Qle, Qdiv, Qmult, Qinv, inject_Z; simpl. lia. Qed.
End Timeframe.

(* ===================================================================== *)
(** ** The /payouts handler, stage by stage *)
(* ===================================================================== *)

Section PayoutsStages.
Variable rt : runtime.
Variable amount : Type.
Variable PAYOUTS : string -> Z -> option amount.
Variable e : payouts_env.
Variable type : option string.
Variable v : jsvalue.

Lemma pipeline_validated :
  validated type v ->
  payouts_pipeline rt PAYOUTS e type v =
  match checkTimeframe rt (Date_now e) (properties v) with
  | Throw ex => escape (cache e) ex
  | Ok (Some true) => respond (cache e) STATUS_TIME
  | Ok _ =>
      match checkForRps (properties v) with
      | Throw ex => escape (cache e) ex
      | Ok true => respond (cache e) STATUS_SEV
      | Ok false =>
          match lookup_or_fetch rt e v with
          | Throw _ => respond (cache e) STATUS_ERROR
          | Ok (probability, c') => finish PAYOUTS c' type probability
          end
      end
  end.
Proof.
  intros (Hempty & Hlegs & Htype). unfold payouts_pipeline.
  rewrite Hempty, Hlegs, Htype. reflexivity.
Qed.

Lemma pipeline_out_of_timeframe :
  validated type v ->
  checkTimeframe rt (Date_now e) (properties v) = Ok (Some true) ->
  payouts_pipeline rt PAYOUTS e type v = respond (cache e) STATUS_TIME.
Proof.
  intros Hv Ht. rewrite (pipeline_validated Hv), Ht. reflexivity.
Qed.

Lemma pipeline_rail_replacement :
  validated type v ->
  checkTimeframe rt (Date_now e) (properties v) = Ok None ->
  checkForRps (properties v) = Ok true ->
  payouts_pipeline rt PAYOUTS e type v = respond (cache e) STATUS_SEV.
Proof.
  intros Hv Ht Hr. rewrite (pipeline_validated Hv), Ht, Hr. reflexivity.
Qed.

Lemma pipeline_resolution (probability : number) (c' : cache_t) :
  passes_gates rt e type v ->
  lookup_or_fetch rt e v = Ok (probability, c') ->
  payouts_pipeline rt PAYOUTS e type v = finish PAYOUTS c' type probability.
Proof.
  intros (Hv & Ht & Hr) Hp.
  rewrite (pipeline_validated Hv), Ht, Hr, Hp. reflexivity.
Qed.

(** Where the probability comes from. *)
Lemma lookup_or_fetch_source (probability : number) (c' : cache_t) :
  lookup_or_fetch rt e v = Ok (probability, c') ->
  (cache_get (cache e) (fingerprint v) = Some probability /\ c' = cache e)
  \/ (cache_get (cache e) (fingerprint v) = None
      /\ requestProbability rt e (properties v) = Ok probability
      /\ c' = cache_set (cache e) (fingerprint v) probability).
Proof.
  unfold lookup_or_fetch.
  destruct (cache_get (cache e) (fingerprint v)) as [entry|].
  - intros H. injection H as -> ->. now left.
  - destruct (requestProbability rt e (properties v)); cbn [bind];
      [|discriminate].
    intros H. injection H as -> ->. now right.
Qed.

Lemma validated_type_cases :
  validateType type = true ->
  type = Some "small" \/ type = Some "medium" \/ type = Some "large"
  \/ type = Some "all".
Proof.
  destruct type as [t|]; [|discriminate]. cbn [validateType existsb].
  rewrite !orb_true_iff, !String.eqb_eq.
  intros [H|[H|[H|[H|H]]]]; try discriminate; subst t; tauto.
Qed.
End PayoutsStages.

(* ===================================================================== *)
(** ** The time window and the rail-replacement check in the handler *)
(* ===================================================================== *)

(** C4. With diffDays = (departure instant - now) / 1 day, [checkTimeframe]
    returns [true] (out of timeframe) exactly when diffDays <= 1 or
    diffDays >= 10, and returns nothing ([undefined]) exactly when
    1 < diffDays < 10.  A departure exactly 1 day or exactly 10 days away is
    out of timeframe, one 1.5 or 9.999 days away is not.  A validated
    request whose journey is out of timeframe is answered with status 20
    and payout 0. *)
Theorem timeframe_window (rt : runtime) (now d : Z) (j : journey)
  (Hdeparture : retrieveDepartureDate rt j = Ok (Some d)) :
  let days := days_until now d in
  (checkTimeframe rt now j = Ok (Some true) <-> (days <= 1 \/ 10 <= days)%Q)
  /\ (checkTimeframe rt now j = Ok None <-> (1 < days /\ days < 10)%Q)
  /\ ((d - now = 1 * msPerDay)%Z -> checkTimeframe rt now j = Ok (Some true))
  /\ ((d - now = 10 * msPerDay)%Z -> checkTimeframe rt now j = Ok (Some true))
  /\ ((2 * (d - now) = 3 * msPerDay)%Z -> checkTimeframe rt now j = Ok None)
  /\ ((1000 * (d - now) = 9999 * msPerDay)%Z -> checkTimeframe rt now j = Ok None)
  /\ (forall (amount : Type) (PAYOUTS : string -> Z -> option amount)
        (e : payouts_env) (body : payouts_body) (v : jsvalue),
        select_journey body = Ok v -> properties v = j -> Date_now e = now ->
        validated (body_type body) v ->
        (days <= 1 \/ 10 <= days)%Q ->
        reply (post_payouts rt PAYOUTS e body)
        = Sent {| status := STATUS_TIME; payout := PayoutZero |}).
Proof.
  intros days.
  pose proof (checkTimeframe_out rt now d j Hdeparture) as Hout.
  pose proof (checkTimeframe_in rt now d j Hdeparture) as Hin.
  pose proof (diff_le_1 now d) as Hle.
  pose proof (diff_ge_10 now d) as Hge.
  fold days in Hout, Hin, Hle, Hge.
  assert (forall a b : Q, (a < b)%Q <-> ~ (b <= a)%Q) as Hlt.
  { intros a b. split; [apply Qlt_not_le | apply Qnot_le_lt]. }
  repeat split; try (apply Hout || apply Hin); trivial.
  - intros H. apply Hout. left. apply Hle. unfold msPerDay in H. lia.
  - intros H. apply Hout. right. apply Hge. unfold msPerDay in H. lia.
  - intros H. apply Hin. rewrite !Hlt, Hle, Hge. unfold msPerDay in H. lia.
  - intros H. apply Hin. rewrite !Hlt, Hle, Hge. unfold msPerDay in H. lia.
  - intros amount PAYOUTS e body v Hsel Hprops Hnow Hvalid Hdays.
    unfold post_payouts. rewrite Hsel.
    rewrite pipeline_out_of_timeframe; [reflexivity | exact Hvalid |].
    rewrite Hprops, Hnow. now apply Hout.
Qed.

(** A departure exactly one day away is out of timeframe. *)
Lemma timeframe_window_witness :
  checkTimeframe Engine.utc (1679772600000 - 86400000) booked = Ok (Some true).
Proof.
  refine (proj1 (proj2 (proj2
            (timeframe_window Engine.utc (1679772600000 - 86400000)
               1679772600000 booked _))) _); reflexivity.
Defined.

(** C8. On a journey whose legs all carry a train name, [checkForRps]
    returns [true] exactly when some leg's train name contains "bus" in any
    mix of upper and lower case, and returns [false] when no leg does.  A
    validated request inside the time window with such a leg is answered
    with status 10 and payout 0. *)
Theorem rail_replacement_check (j : journey)
  (Htrain : Forall (fun kv => obj_get "train" (snd kv) <> None) j) :
  (checkForRps j = Ok true <-> Exists bus_leg j)
  /\ (checkForRps j = Ok false <-> ~ Exists bus_leg j)
  /\ (forall (rt : runtime) (amount : Type) (PAYOUTS : string -> Z -> option amount)
        (e : payouts_env) (body : payouts_body) (v : jsvalue),
        select_journey body = Ok v -> properties v = j ->
        validated (body_type body) v ->
        checkTimeframe rt (Date_now e) j = Ok None ->
        Exists bus_leg j ->
        reply (post_payouts rt PAYOUTS e body)
        = Sent {| status := STATUS_SEV; payout := PayoutZero |}).
Proof.
  pose proof (checkForRps_true j Htrain) as Htrue.
  pose proof (checkForRps_total j Htrain) as Htotal.
  repeat split.
  - apply Htrue.
  - apply Htrue.
  - intros Hfalse Hbus. apply Htrue in Hbus. congruence.
  - intros Hnone. destruct Htotal as [H|H]; [|exact H].
    apply Htrue in H. contradiction.
  - intros rt amount PAYOUTS e body v Hsel Hprops Hvalid Htime Hbus.
    unfold post_payouts. rewrite Hsel.
    rewrite pipeline_rail_replacement; [reflexivity | exact Hvalid | |];
      rewrite Hprops; [exact Htime | now apply Htrue].
Qed.

Lemma rail_replacement_check_witness :
  checkForRps
    [("leg_1", [("train", "Schienenersatzverkehr Bus 12")]);
     ("leg_2", [("train", "ICE 123")])]
  = Ok true.
Proof.
  refine (proj2 (proj1 (rail_replacement_check
            [("leg_1", [("train", "Schienenersatzverkehr Bus 12")]);
             ("leg_2", [("train", "ICE 123")])] _)) _).
  - repeat constructor; discriminate.
  - left. exists "Schienenersatzverkehr Bus 12". split; [reflexivity|].
    exists "Schienenersatzverkehr ", "B"%char, "u"%char, "s"%char, " 12".
    repeat split; auto.
Defined.

Example checkForRps_upper_case : checkForRps [("leg_1", [("train", "BUS")])] = Ok true.
Proof. reflexivity. Qed.

Example checkForRps_ice : checkForRps [("leg_1", [("train", "ICE 123")])] = Ok false.
Proof. reflexivity. Qed.

(* ===================================================================== *)
(** ** The probability cap and the payout matrix *)
(* ===================================================================== *)

Section Resolution.
Variable amount : Type.
Variable PAYOUTS : string -> Z -> option amount.

Lemma resolve_rejected (type : option string) (p : Q) :
  (40 < p)%Q ->
  resolve PAYOUTS type (Some p)
  = (Sent {| status := STATUS_PROBABILITY; payout := PayoutZero |}, []).
Proof.
  intros Hp. unfold resolve, num_gtb.
  now rewrite (proj2 (num_ltb_lt 40 p) Hp).
Qed.

Lemma resolve_accepted (tier : string) (p : Q) :
  (p <= 40)%Q ->
  resolve PAYOUTS (Some tier) (Some p)
  = if String.eqb tier "all"
    then (Sent {| status := STATUS_OK;
                  payout := PayoutAll (PAYOUTS "small" (Qceiling p))
                                      (PAYOUTS "medium" (Qceiling p))
                                      (PAYOUTS "large" (Qceiling p)) |},
          [("small", Some (Qceiling p)); ("medium", Some (Qceiling p));
           ("large", Some (Qceiling p))])
    else (Sent {| status := STATUS_OK;
                  payout := PayoutSingle (PAYOUTS tier (Qceiling p)) |},
          [(tier, Some (Qceiling p))]).
Proof.
  intros Hp. unfold resolve, num_gtb.
  now rewrite (proj2 (num_ltb_ge 40 p) Hp).
Qed.
End Resolution.

Lemma small_request_gates (p : Q) :
  passes_gates Engine.utc (quiet_env noon_2023_03_22 p) (Some "small")
               (JObject (decode encoded_booked)).
Proof. repeat split. Qed.

(** C2. In the [/payouts] handler, once a request is past validation, the
    time window and the rail-replacement check and has obtained the
    probability [p] (from the cache or from the prediction service): if
    [p > 40], compared as it is and before any rounding, the response is
    status 30 with payout 0 and no cell of the matrix is read; if
    [p <= 40], 40 itself included, the handler goes on to the matrix: the
    response has status 0 and every cell read is in row ceiling(p). *)
Theorem probability_cap (rt : runtime) (amount : Type)
  (PAYOUTS : string -> Z -> option amount) (e : payouts_env)
  (body : payouts_body) (v : jsvalue) (p : Q) (c' : cache_t)
  (Hselect : select_journey body = Ok v)
  (Hgates : passes_gates rt e (body_type body) v)
  (Hprobability : lookup_or_fetch rt e v = Ok (Some p, c')) :
  let result := post_payouts rt PAYOUTS e body in
  ((40 < p)%Q ->
     reply result = Sent {| status := STATUS_PROBABILITY; payout := PayoutZero |}
     /\ matrix_reads result = [])
  /\ ((p <= 40)%Q ->
        exists pay,
          reply result = Sent {| status := STATUS_OK; payout := pay |}
          /\ matrix_reads result <> []
          /\ Forall (fun read => snd read = Some (Qceiling p)) (matrix_reads result))
  /\ (cache_get (cache e) (fingerprint v) = Some (Some p)
      \/ (cache_get (cache e) (fingerprint v) = None
          /\ requestProbability rt e (properties v) = Ok (Some p))).
Proof.
  intros result.
  assert (result = finish PAYOUTS c' (body_type body) (Some p)) as ->.
  { unfold result, post_payouts. rewrite Hselect.
    now apply pipeline_resolution. }
  unfold finish. split; [|split].
  - intros Hp. now rewrite resolve_rejected.
  - intros Hp.
    destruct Hgates as ((_ & _ & Htype) & _).
    destruct (body_type body) as [tier|]; [|discriminate].
    rewrite resolve_accepted by exact Hp.
    destruct (String.eqb tier "all"); cbn [reply matrix_reads];
      eexists; (split; [reflexivity|]); (split; [discriminate|]);
      repeat constructor.
  - destruct (lookup_or_fetch_source rt e v _ _ Hprobability)
      as [(H & _)|(H1 & H2 & _)]; [now left | now right].
Qed.

(** A probability of 40.01 is refused. *)
Lemma probability_cap_witness :
  reply (post_payouts Engine.utc row_matrix
           (quiet_env noon_2023_03_22 (4001 # 100)) small_request)
  = Sent {| status := STATUS_PROBABILITY; payout := PayoutZero |}.
Proof.
  refine (proj1 (proj1 (probability_cap Engine.utc Z row_matrix
            (quiet_env noon_2023_03_22 (4001 # 100)) small_request
            (JObject (decode encoded_booked)) (4001 # 100)
            (cache_set (fun _ => None)
               (fingerprint (JObject (decode encoded_booked)))
               (Some (4001 # 100)))
            _ _ _) _)).
  - reflexivity.
  - apply small_request_gates.
  - reflexivity.
  - reflexivity.
Defined.

(** C3. For every accepted probability [p <= 40] the [/payouts] response has
    status 0; for a tier [small], [medium] or [large] its payout is the
    matrix entry of that tier at row ceiling(p), and for [all] it gives the
    entries of the three tiers at that same row.  Exactly these cells are
    read: nothing is interpolated. *)
Theorem payout_at_ceiling (rt : runtime) (amount : Type)
  (PAYOUTS : string -> Z -> option amount) (e : payouts_env)
  (body : payouts_body) (v : jsvalue) (p : Q) (c' : cache_t)
  (Hselect : select_journey body = Ok v)
  (Hgates : passes_gates rt e (body_type body) v)
  (Hprobability : lookup_or_fetch rt e v = Ok (Some p, c'))
  (Haccepted : (p <= 40)%Q) :
  let result := post_payouts rt PAYOUTS e body in
  let row := Qceiling p in
  exists tier,
    body_type body = Some tier
    /\ (tier <> "all" ->
          reply result
          = Sent {| status := STATUS_OK;
                    payout := PayoutSingle (PAYOUTS tier row) |}
          /\ matrix_reads result = [(tier, Some row)])
    /\ (tier = "all" ->
          reply result
          = Sent {| status := STATUS_OK;
                    payout := PayoutAll (PAYOUTS "small" row)
                                        (PAYOUTS "medium" row)
                                        (PAYOUTS "large" row) |}
          /\ matrix_reads result
             = [("small", Some row); ("medium", Some row); ("large", Some row)]).
Proof.
  intros result row.
  assert (result = finish PAYOUTS c' (body_type body) (Some p)) as ->.
  { unfold result, post_payouts. rewrite Hselect.
    now apply pipeline_resolution. }
  destruct Hgates as ((_ & _ & Htype) & _).
  destruct (body_type body) as [tier|]; [|discriminate].
  exists tier. split; [reflexivity|].
  unfold finish. rewrite resolve_accepted by exact Haccepted.
  split; intros Htier.
  - apply String.eqb_neq in Htier. rewrite Htier. now split.
  - subst tier. now split.
Qed.

(** A probability of 12.3 reads row 13. *)
Lemma payout_at_ceiling_witness :
  reply (post_payouts Engine.utc row_matrix
           (quiet_env noon_2023_03_22 (123 # 10)) small_request)
  = Sent {| status := STATUS_OK; payout := PayoutSingle (Some 13%Z) |}.
Proof.
  destruct (payout_at_ceiling Engine.utc Z row_matrix
              (quiet_env noon_2023_03_22 (123 # 10)) small_request
              (JObject (decode encoded_booked)) (123 # 10)
              (cache_set (fun _ => None)
                 (fingerprint (JObject (decode encoded_booked)))
                 (Some (123 # 10))))
    as (tier & Htier & Hsingle & _).
  - reflexivity.
  - apply small_request_gates.
  - reflexivity.
  - discriminate.
  - injection Htier as <-. apply Hsingle. discriminate.
Defined.

(* ===================================================================== *)
(** ** Which journey /payouts works on *)
(* ===================================================================== *)

Example ToString_of_body_values :
  ToString (JsonArray [JsonString "all"]) = Ok "all"
  /\ ToString (JsonArray [JsonArray [JsonString "all"]]) = Ok "all"
  /\ ToString (JsonArray [JsonString "a"; JsonString "ll"]) = Ok "a,ll"
  /\ ToString (JsonArray [JsonNull; JsonNumber "1";
                          JsonArray [JsonBoolean true; JsonNull]])
     = Ok ",1,true,"
  /\ ToString (JsonArray []) = Ok EmptyString
  /\ ToString (JsonObject [("type", JsonString "all")]) = Ok "[object Object]"
  /\ ToString (JsonObject [("toString", JsonString "all")]) = Throw TypeError
  /\ ToString (JsonArray [JsonString "all"; JsonObject [("toString", JsonNull)]])
     = Throw TypeError.
Proof. repeat split. Qed.

Example differs_from_all_values :
  differs_from_all (Some (JsonString "all")) = Ok false
  /\ differs_from_all (Some (JsonString "All")) = Ok true
  /\ differs_from_all (Some (JsonString "small")) = Ok true
  /\ differs_from_all None = Ok true
  /\ differs_from_all (Some JsonNull) = Ok true
  /\ differs_from_all (Some (JsonBoolean true)) = Ok true
  /\ differs_from_all (Some (JsonNumber "0")) = Ok true
  /\ differs_from_all (Some (JsonArray [JsonString "all"])) = Ok false
  /\ differs_from_all (Some (JsonArray [JsonString "small"])) = Ok true
  /\ differs_from_all (Some (JsonObject [])) = Ok true
  /\ differs_from_all (Some (JsonObject [("toString", JsonNumber "1")]))
     = Throw TypeError.
Proof. repeat split. Qed.

Lemma post_payouts_json_of_body (rt : runtime) (amount : Type)
  (PAYOUTS : string -> Z -> option amount) (e : payouts_env)
  (body : payouts_body) :
  select_journey_json (request_of_body body) = select_journey body
  /\ post_payouts_json rt PAYOUTS e (request_of_body body)
     = post_payouts rt PAYOUTS e body.
Proof.
  assert (select_journey_json (request_of_body body) = select_journey body) as E.
  { unfold select_journey_json, select_journey, request_of_body, is_all.
    cbn [request_type request_journey].
    destruct (body_type body) as [t|]; cbn [option_map differs_from_all bind];
      reflexivity. }
  split; [exact E|].
  unfold post_payouts_json, post_payouts. rewrite E.
  unfold request_of_body. cbn [request_type].
  now destruct (body_type body).
Qed.

Lemma decoded_not_as_it_is (journey : jsvalue) :
  (let* j := call_decode journey in Ok (JObject j)) <> Ok journey.
Proof. destruct journey; cbn [call_decode bind]; discriminate. Qed.

Lemma as_it_is_iff (type : option json) (journey : jsvalue) :
  select_journey_json {| request_type := type; request_journey := journey |}
  = Ok journey
  <-> differs_from_all type = Ok false.
Proof.
  unfold select_journey_json. cbn [request_type request_journey].
  destruct (differs_from_all type) as [[|]|ex]; cbn [bind].
  - split; [|discriminate]. intros H. now apply decoded_not_as_it_is in H.
  - now split.
  - split; discriminate.
Qed.

Lemma text_with_comma (a b : string) : (a ++ String "," b)%string <> "all".
Proof.
  destruct a as [|c1 [|c2 [|c3 [|c4 a]]]]; cbn [append]; intros H;
    try discriminate; injection H; intros; discriminate.
Qed.

Lemma array_text (items : list json) (text : string) :
  ToString (JsonArray items) = Ok text ->
  text = "all" ->
  exists item, items = [item] /\ item <> JsonNull /\ ToString item = Ok "all".
Proof.
  destruct items as [|item [|item' rest]].
  - cbn. intros H E. congruence.
  - intros H E. exists item. split; [reflexivity|].
    change (ToString (JsonArray [item]))
      with (let* t := match item with
                      | JsonNull => Ok EmptyString
                      | _ => ToString item
                      end in
            Ok t) in H.
    destruct item; [cbn [bind] in H; congruence| | | | |];
      (split; [discriminate|]);
      match type of H with
      | bind ?c _ = _ => destruct c; cbn [bind] in H; congruence
      end.
  - intros H E. exfalso.
    change (ToString (JsonArray (item :: item' :: rest)))
      with (let* t := match item with
                      | JsonNull => Ok EmptyString
                      | _ => ToString item
                      end in
            let* more := ToString (JsonArray (item' :: rest)) in
            Ok (t ++ String "," more)%string) in H.
    destruct (match item with JsonNull => Ok EmptyString | _ => ToString item end)
      as [t|]; cbn [bind] in H; [|discriminate].
    destruct (ToString (JsonArray (item' :: rest))) as [more|];
      cbn [bind] in H; [|discriminate].
    injection H as <-. now apply text_with_comma in E.
Qed.

(** C10. Whether [/payouts] decodes the [journey] field is decided by the
    [type] field alone, through the comparison [type != "all"].  A type that
    is a string is used as it is when it is "all" and handed to [decode]
    when it is any other string; an absent type, [null], a boolean and a
    number go to [decode] as well.  An array or an object is compared by
    the text it converts to, so that the journey is used as it is when that
    text is "all", which for an array means a single element converting to
    "all"; when the conversion throws, so does the handler.  The journey
    itself has no say: a structured journey sent with the type "small",
    "medium" or "large" is handed to [decode], whose [split] call fails on
    it, and no response is sent. *)
Theorem journey_dispatch_by_type (rt : runtime) (amount : Type)
  (PAYOUTS : string -> Z -> option amount) (e : payouts_env)
  (type : option json) (journey : jsvalue) :
  let req := {| request_type := type; request_journey := journey |} in
  let as_it_is := Ok journey in
  let decoded := match journey with
                 | JString encoded => Ok (JObject (decode encoded))
                 | _ => Throw TypeError
                 end in
  (forall s, type = Some (JsonString s) ->
     (s = "all" ->
      select_journey_json req = as_it_is
      /\ post_payouts_json rt PAYOUTS e req
         = payouts_pipeline rt PAYOUTS e (Some "all") journey)
     /\ (s <> "all" -> select_journey_json req = decoded))
  /\ (type = None \/ type = Some JsonNull
      \/ (exists b, type = Some (JsonBoolean b))
      \/ (exists text, type = Some (JsonNumber text)) ->
      select_journey_json req = decoded)
  /\ (forall o,
        type = Some o ->
        (exists items, o = JsonArray items)
        \/ (exists members, o = JsonObject members) ->
        match ToString o with
        | Ok text =>
            (text = "all" -> select_journey_json req = as_it_is)
            /\ (text <> "all" -> select_journey_json req = decoded)
        | Throw ex =>
            select_journey_json req = Throw ex
            /\ reply (post_payouts_json rt PAYOUTS e req) = Uncaught ex
        end)
  /\ (forall items,
        type = Some (JsonArray items) ->
        select_journey_json req = as_it_is ->
        exists item, items = [item] /\ item <> JsonNull
                     /\ ToString item = Ok "all")
  /\ (forall members,
        type = Some (JsonObject members) -> select_journey_json req <> as_it_is)
  /\ (forall other,
        select_journey_json req = as_it_is
        <-> select_journey_json {| request_type := type; request_journey := other |}
            = Ok other)
  /\ (forall s j,
        In s ["small"; "medium"; "large"] ->
        type = Some (JsonString s) ->
        journey = JObject j ->
        select_journey_json req = Throw TypeError
        /\ reply (post_payouts_json rt PAYOUTS e req) = Uncaught TypeError).
Proof.
  intros req as_it_is decoded.
  assert (forall t, differs_from_all t = Ok true ->
            select_journey_json {| request_type := t; request_journey := journey |}
            = decoded) as Hdecoded.
  { intros t Ht. unfold select_journey_json. cbn [request_type request_journey].
    rewrite Ht. cbn [bind]. subst decoded. now destruct journey. }
  assert (forall t, differs_from_all t = Ok false ->
            select_journey_json {| request_type := t; request_journey := journey |}
            = as_it_is) as Has_it_is.
  { intros t Ht. now apply as_it_is_iff. }
  assert (forall s, s <> "all" -> differs_from_all (Some (JsonString s)) = Ok true)
    as Hother.
  { intros s Hs. cbn [differs_from_all].
    destruct (String.eqb_spec s "all"); [contradiction | reflexivity]. }
  split; [|split; [|split; [|split; [|split; [|split]]]]].
  - intros s ->. split.
    + intros ->. split; [now apply Has_it_is|].
      unfold post_payouts_json. subst req.
      now rewrite (Has_it_is (Some (JsonString "all")) eq_refl).
    + intros Hs. apply Hdecoded. now apply Hother.
  - intros [->|[->|[[b ->]|[text ->]]]]; now apply Hdecoded.
  - intros o -> Hshape.
    assert (differs_from_all (Some o)
            = let* primitive := ToString o in
              Ok (negb (String.eqb primitive "all"))) as Hcompare
      by (destruct Hshape as [[items ->]|[members ->]]; reflexivity).
    destruct (ToString o) as [text|ex]; cbn [bind] in Hcompare.
    + split.
      * intros ->. now apply Has_it_is.
      * intros Htext. apply Hdecoded. rewrite Hcompare.
        destruct (String.eqb_spec text "all"); [contradiction | reflexivity].
    + assert (select_journey_json req = Throw ex) as Hthrow
        by (unfold select_journey_json; subst req; cbn [request_type];
            now rewrite Hcompare).
      split; [exact Hthrow|].
      unfold post_payouts_json. now rewrite Hthrow.
  - intros items -> Hsel. apply as_it_is_iff in Hsel.
    cbn [differs_from_all] in Hsel.
    destruct (ToString (JsonArray items)) as [text|] eqn:Htext;
      cbn [bind] in Hsel; [|discriminate].
    apply (array_text items text Htext).
    destruct (String.eqb_spec text "all"); [assumption | discriminate].
  - intros members -> Hsel. apply as_it_is_iff in Hsel.
    cbn [differs_from_all ToString] in Hsel.
    destruct (existsb (String.eqb "toString") (keys members));
      cbn [bind] in Hsel; discriminate.
  - intros other. subst req as_it_is. now rewrite !as_it_is_iff.
  - intros s j Hs Htype Hjourney.
    assert (s <> "all") as Hne
      by (intros ->; cbn in Hs; intuition discriminate).
    assert (select_journey_json req = Throw TypeError) as Hthrow.
    { unfold req. rewrite Htype, (Hdecoded _ (Hother s Hne)).
      unfold decoded. now rewrite Hjourney. }
    split; [exact Hthrow|].
    unfold post_payouts_json. now rewrite Hthrow.
Qed.

(** C10, counterexample.  The array [["all"]] is not the string "all", and
    the comparison of line 91 takes it for "all": a structured journey
    sent with this type is used as it is and the request is answered with
    status 100 by the validation of the type, where [decode] would have
    thrown a TypeError. *)
Lemma array_type_taken_as_all :
  request_type array_typed_request <> Some (JsonString "all")
  /\ select_journey_json array_typed_request
     = Ok (request_journey array_typed_request)
  /\ call_decode (request_journey array_typed_request) = Throw TypeError
  /\ reply (post_payouts_json Engine.utc row_matrix
              (quiet_env noon_2023_03_22 25) array_typed_request)
     = Sent {| status := STATUS_ERROR; payout := PayoutZero |}
  /\ ~ (select_journey_json array_typed_request
        = Ok (request_journey array_typed_request)
        <-> request_type array_typed_request = Some (JsonString "all")).
Proof.
  repeat split; try discriminate; try reflexivity.
  intros [H _]. specialize (H eq_refl). discriminate.
Qed.

(* ===================================================================== *)
(** ** calculateDelayMinutes and the /delay handler *)
(* ===================================================================== *)

Section DelayCalculator.
Variable rt : runtime.

Lemma setDate_next_day (r : Z) :
  setDate rt (Some r) (option_map (fun d => d + 1)%Z (getDate rt (Some r)))
  = TimeClip (next_day rt r).
Proof.
  unfold setDate, getDate, next_day, MakeDate, Day, TimeWithinDay.
  cbn [option_map]. do 2 f_equal.
  pose proof (Z.div_mod (LocalTime rt r) msPerDay) as E.
  unfold msPerDay in *. lia.
Qed.

Lemma next_day_fixed_offset (r : Z) :
  LocalTZA rt r true = LocalTZA rt (LocalTime rt r + msPerDay) false ->
  next_day rt r = (r + msPerDay)%Z.
Proof. unfold next_day, UTC, LocalTime. lia. Qed.

Lemma early_test (s r : Z) :
  num_ltb (num_of_Z (getTime (Some r)))
          (num_of_Z (option_map (fun s => s - 4 * 60 * 60 * 1000)%Z
                                (getTime (Some s))))
  = (r <? s - 4 * msPerHour)%Z.
Proof.
  cbn [getTime option_map num_of_Z]. apply eq_true_iff_eq.
  rewrite num_ltb_lt, Z.ltb_lt, <- Zlt_Qlt. unfold msPerHour. lia.
Qed.

Lemma calculateDelayMinutes_value (s r : Z) :
  ((r < s - 4 * msPerHour)%Z ->
   (Z.abs (next_day rt r) <= 8640000000000000)%Z) ->
  exists minutes,
    fst (calculateDelayMinutes rt (Some s) (Some r)) = Some minutes
    /\ (minutes == inject_Z (corrected_arrival rt s r - s) / 60000)%Q.
Proof.
  intros Hrange. unfold calculateDelayMinutes, corrected_arrival.
  rewrite early_test.
  destruct (Z.ltb_spec r (s - 4 * msPerHour)) as [Hearly|_].
  - rewrite setDate_next_day. unfold TimeClip.
    rewrite (proj2 (Z.leb_le _ _) (Hrange Hearly)). cbn [fst num_of_Z num_div option_map].
    eexists. split; [reflexivity|].
    unfold Qeq, Qdiv, Qmult, Qinv, inject_Z. simpl. lia.
  - cbn [fst num_of_Z num_div option_map].
    eexists. split; [reflexivity|].
    unfold Qeq, Qdiv, Qmult, Qinv, inject_Z. simpl. lia.
Qed.
End DelayCalculator.

Lemma no_leg_messages (j : journey) :
  Forall (fun kv => validateLeg (snd kv) = true) j ->
  existsb (fun kv => negb (validateLeg (snd kv))) j = false.
Proof.
  induction 1 as [|kv rest Hkv _ IH]; [reflexivity|].
  cbn [existsb]. now rewrite Hkv, IH.
Qed.

Lemma post_delay_value (rt : runtime) (zugfinder : journey -> completion journey)
  (body : delay_body) (s r : Z) :
  delay_inputs rt zugfinder body s r ->
  post_delay rt zugfinder body
  = Sent {| delay_status := STATUS_OK;
            delay := let delay0 := fst (calculateDelayMinutes rt (Some s) (Some r)) in
                     if num_ltb delay0 (Some 0%Q) then Some 0%Q else delay0 |}.
Proof.
  intros (journey & response & Hbody & Hkeys & Hlegs & Hs & Hz & Hr).
  unfold post_delay. rewrite Hbody.
  destruct (keys journey) as [|k ks] eqn:Ek; [congruence|]. cbn [List.length Nat.eqb].
  rewrite (no_leg_messages _ Hlegs), Hs, Hz, Hr. reflexivity.
Qed.

(** C1 (amended). In the [/delay] handler, for a scheduled arrival [s] and
    an observed arrival [r], the reported delay is
    max(0, (r' - s) / 60000) minutes, where [r'] is [r] moved to the same
    local time on the next calendar day if [r] is earlier than [s] minus
    4 hours (the moved instant being within the range of a Date), and [r]
    otherwise.  The reported delay is never negative.
    Where the zone's offset from UTC is the same at [r] and one calendar
    day later, [r'] is [r] plus exactly 86 400 000 ms, and then a scheduled
    arrival at 23:50 with an observed arrival reported as 00:10 of the same
    date ([r] 23 h 40 min before [s]) gives a delay of 20 minutes. *)
Theorem reported_delay (rt : runtime) (zugfinder : journey -> completion journey)
  (body : delay_body) (s r : Z)
  (Hinputs : delay_inputs rt zugfinder body s r)
  (Hrange : (r < s - 4 * msPerHour)%Z ->
            (Z.abs (next_day rt r) <= 8640000000000000)%Z) :
  let r' := corrected_arrival rt s r in
  exists minutes : Q,
    post_delay rt zugfinder body
    = Sent {| delay_status := STATUS_OK; delay := Some minutes |}
    /\ (minutes == Qmax 0 (inject_Z (r' - s) / 60000))%Q
    /\ (0 <= minutes)%Q
    /\ (LocalTZA rt r true = LocalTZA rt (LocalTime rt r + msPerDay) false ->
        next_day rt r = (r + msPerDay)%Z)
    /\ (next_day rt r = (r + msPerDay)%Z ->
        (s - r = 23 * msPerHour + 40 * msPerMinute)%Z ->
        (minutes == 20)%Q).
Proof.
  intros r'.
  rewrite (post_delay_value rt zugfinder body s r Hinputs).
  destruct (calculateDelayMinutes_value rt s r Hrange) as (m & Hm & Em).
  fold r' in Em. cbv zeta. rewrite Hm.
  set (exact := (inject_Z (r' - s) / 60000)%Q) in *.
  assert ((0 <= Qmax 0 exact)%Q) as Hnonneg by apply Q.le_max_l.
  assert (forall clamped : Q,
            (clamped == Qmax 0 exact)%Q ->
            next_day rt r = (r + msPerDay)%Z ->
            (s - r = 23 * msPerHour + 40 * msPerMinute)%Z ->
            (clamped == 20)%Q) as Hexample.
  { intros clamped Hc Hnext Hs. rewrite Hc.
    assert (r' = (s + 20 * msPerMinute)%Z) as Er'.
    { unfold r', corrected_arrival.
      destruct (Z.ltb_spec r (s - 4 * msPerHour));
        unfold msPerHour, msPerMinute, msPerDay in *; lia. }
    assert (exact == 20)%Q as ->.
    { unfold exact. rewrite Er'.
      replace (s + 20 * msPerMinute - s)%Z with 1200000%Z
        by (unfold msPerMinute; lia).
      reflexivity. }
    reflexivity. }
  destruct (num_ltb (Some m) (Some 0%Q)) eqn:Eneg.
  - exists 0%Q. apply num_ltb_lt in Eneg.
    assert (Qmax 0 exact == 0)%Q as Hmax.
    { apply Q.max_l. rewrite <- Em. now apply Qlt_le_weak. }
    split; [reflexivity|]. split; [now rewrite Hmax|].
    split; [apply Qle_refl|]. split; [apply next_day_fixed_offset|].
    apply Hexample. now rewrite Hmax.
  - exists m. apply num_ltb_ge in Eneg.
    assert (Qmax 0 exact == exact)%Q as Hmax.
    { apply Q.max_r. now rewrite <- Em. }
    split; [reflexivity|]. split; [now rewrite Hmax|].
    split; [exact Eneg|]. split; [apply next_day_fixed_offset|].
    apply Hexample. now rewrite Hmax.
Qed.

(** On a host without clock changes, a train booked to arrive at 23:50 and
    reported at 00:10 of the same date is 20 minutes late. *)
Lemma reported_delay_witness :
  exists minutes : Q,
    post_delay Engine.utc (fun _ => Ok (reported "00:10")) (JourneyItself booked)
    = Sent {| delay_status := STATUS_OK; delay := Some minutes |}
    /\ (minutes == 20)%Q.
Proof.
  assert (delay_inputs Engine.utc (fun _ => Ok (reported "00:10"))
            (JourneyItself booked) 1679788200000 1679703000000) as Hinputs.
  { exists booked, (reported "00:10").
    repeat split; try reflexivity; try discriminate.
    repeat constructor. }
  assert ((1679703000000 < 1679788200000 - 4 * msPerHour)%Z ->
          (Z.abs (next_day Engine.utc 1679703000000) <= 8640000000000000)%Z)
    as Hrange by (intros _; vm_compute; discriminate).
  destruct (reported_delay Engine.utc _ _ _ _ Hinputs Hrange)
    as (minutes & Hsent & _ & _ & _ & Hexample).
  exists minutes. split; [exact Hsent|].
  apply Hexample; reflexivity.
Defined.

(** C1, counterexample.  A host on Central European Time; the train booked
    to arrive on 2023-03-25 at 23:50 arrives at 03:10 after the clocks went
    forward, 140 minutes late, and is reported under the date 2023-03-25.
    The handler reports 140 minutes; [r] plus exactly 86 400 000 ms would
    give 200. *)
Lemma delay_across_clock_change :
  let s := 1679784600000%Z in
  let r := 1679710200000%Z in
  retrieveArrivalDate Engine.berlin_2023 booked = Ok (Some s)
  /\ retrieveArrivalDate Engine.berlin_2023 (reported "03:10") = Ok (Some r)
  /\ (r < s - 4 * msPerHour)%Z
  /\ post_delay Engine.berlin_2023 (fun _ => Ok (reported "03:10"))
                (JourneyItself booked)
     = Sent {| delay_status := STATUS_OK; delay := Some (8400000 # 60000) |}
  /\ ((8400000 # 60000) == 140)%Q
  /\ ~ ((8400000 # 60000) == Qmax 0 (inject_Z (r + msPerDay - s) / 60000))%Q.
Proof.
  cbv zeta. repeat split; try (vm_compute; reflexivity).
  intros H. vm_compute in H. discriminate.
Qed.

(* ===================================================================== *)
(** ** The cache fingerprint *)
(* ===================================================================== *)

Lemma obj_get_absent {A : Type} (k : string) (o : obj A) :
  ~ In k (keys o) -> obj_get k o = None.
Proof.
  induction o as [|[k' v] rest IH]; simpl; intros H; [reflexivity|].
  destruct (String.eqb_spec k k') as [->|_]; [tauto|]. apply IH. tauto.
Qed.

Lemma leg_ext (l1 l2 : leg) :
  NoDup (keys l1) -> keys l1 = keys l2 -> same_fields l1 l2 -> l1 = l2.
Proof.
  revert l2. induction l1 as [|[k v] rest IH]; intros [|[k2 v2] rest2] Hnd Hk Hsame;
    try discriminate; [reflexivity|].
  simpl in Hk. injection Hk as <- Hk.
  inversion Hnd as [|? ? Hfresh Hnd']; subst.
  pose proof (Hsame k) as Hhead. simpl in Hhead.
  rewrite String.eqb_refl in Hhead. injection Hhead as <-.
  f_equal. apply IH; [exact Hnd' | exact Hk |].
  intro k'. pose proof (Hsame k') as H. simpl in H.
  destruct (String.eqb_spec k' k) as [Heq|_]; [subst k'|exact H].
  rewrite !obj_get_absent;
    first [reflexivity | exact Hfresh | rewrite <- Hk; exact Hfresh].
Qed.

Lemma journey_ext (j1 j2 : journey) :
  unique_keys j1 -> same_order j1 j2 -> same_journey j1 j2 -> j1 = j2.
Proof.
  intros [Hnd Hlegs] Horder. revert Hnd Hlegs.
  induction Horder as [|[k1 l1] [k2 l2] rest1 rest2 [Hk Hfields] Hrest IH];
    intros Hnd Hlegs Hsame; [reflexivity|].
  simpl in Hk, Hfields. subst k2.
  inversion Hnd as [|? ? Hfresh Hnd']; subst.
  inversion Hlegs as [|? ? Hl1 Hlegs']; subst. simpl in Hl1.
  assert (@keys leg rest1 = @keys leg rest2) as Hkeys.
  { clear -Hrest. induction Hrest as [|? ? ? ? [H _] _ IH']; [reflexivity|].
    cbn [keys map] in *. now f_equal. }
  pose proof (Hsame k1) as Hhead. simpl in Hhead.
  rewrite String.eqb_refl in Hhead.
  rewrite (leg_ext l1 l2 Hl1 Hfields Hhead).
  f_equal. apply IH; [exact Hnd' | exact Hlegs' |].
  intro k'. pose proof (Hsame k') as H. simpl in H.
  destruct (String.eqb_spec k' k1) as [Heq|_]; [subst k'|exact H].
  rewrite !obj_get_absent;
    first [exact I | exact Hfresh | rewrite <- Hkeys; exact Hfresh].
Qed.

Lemma booked_unique_keys : unique_keys booked.
Proof.
  split.
  - repeat constructor. intros [].
  - repeat constructor; simpl; intuition discriminate.
Qed.

(** C7 (amended). The fingerprint is determined by the journey's
    serialization: two journeys that are equal as mappings from leg keys to
    leg field values and whose leg keys and leg fields come in the same
    order have the same fingerprint, and so meet the same cache entry. *)
Theorem fingerprint_of_same_serialization (j1 j2 : journey)
  (Hunique : unique_keys j1)
  (Horder : same_order j1 j2)
  (Hsame : same_journey j1 j2) :
  fingerprint (JObject j1) = fingerprint (JObject j2)
  /\ forall c : cache_t,
       cache_get c (fingerprint (JObject j1))
       = cache_get c (fingerprint (JObject j2)).
Proof.
  rewrite (journey_ext j1 j2 Hunique Horder Hsame). now split.
Qed.

Lemma fingerprint_of_same_serialization_witness :
  fingerprint (JObject (decode encoded_booked)) = fingerprint (JObject booked).
Proof.
  refine (proj1 (fingerprint_of_same_serialization (decode encoded_booked) booked
                   _ _ _)).
  - apply booked_unique_keys.
  - repeat constructor.
  - intros k. change (decode encoded_booked) with booked.
    destruct (obj_get k booked); [intros k'; reflexivity | exact I].
Defined.

(** C7, counterexample.  The booked journey and the same journey with two
    fields of its leg supplied in the other order are equal as mappings, and
    their fingerprints differ. *)
Lemma fingerprint_depends_on_field_order :
  same_journey booked booked_reordered
  /\ fingerprint (JObject booked) <> fingerprint (JObject booked_reordered).
Proof.
  split.
  - intros k. unfold booked, booked_reordered, journey_object.
    cbn [map numbered obj_get]. change (leg_key 1) with "leg_1".
    destruct (String.eqb k "leg_1"); [|exact I].
    intros k'. cbn [leg_of_group Leg_fields ice_1601 train start_stop
                    start_time start_date arrival_stop arrival_time
                    arrival_date obj_get].
    destruct (String.eqb_spec k' "train") as [->|_]; [reflexivity|].
    destruct (String.eqb_spec k' "start_stop") as [->|_]; reflexivity.
  - intros H. vm_compute in H. discriminate.
Qed.

(* ===================================================================== *)
(** ** Missing legs *)
(* ===================================================================== *)

(** C6. A journey whose only leg is filed under [leg_2] passes validation,
    and the exception [retrieveArrivalDate] (in [/delay]) or
    [retrieveDepartureDate] (in [/payouts]) throws for it escapes the
    handler: no response is sent.  The same happens in [/delay] when the
    tracking service answers with an object that has no legs. *)
Theorem missing_leg_escapes_handlers (rt : runtime) :
  (forall zugfinder,
     post_delay rt zugfinder (JourneyItself gap_journey) = Uncaught MissingData)
  /\ (forall (amount : Type) (PAYOUTS : string -> Z -> option amount) e,
        reply (post_payouts rt PAYOUTS e
                 {| body_type := Some "all"; body_journey := JObject gap_journey |})
        = Uncaught MissingData)
  /\ (forall s, retrieveArrivalDate rt booked = Ok s ->
        post_delay rt (fun _ => Ok []) (JourneyItself booked)
        = Uncaught MissingData).
Proof.
  split; [|split].
  - intros zugfinder. reflexivity.
  - intros amount PAYOUTS e. reflexivity.
  - intros s Hs. unfold post_delay. cbn [delay_journey].
    change (Nat.eqb (List.length (keys booked)) 0) with false.
    change (existsb (fun kv => negb (validateLeg (snd kv))) booked) with false.
    cbv iota. rewrite Hs. reflexivity.
Qed.

(** The sibling path: in [/payouts] the missing arrival leg of
    [skipped_journey] makes [requestProbability] throw inside the handler's
    [try], and the request is answered with the generic failure status; the
    same journey sent to [/delay] escapes the handler. *)
Example missing_arrival_leg_in_both_handlers :
  reply (post_payouts Engine.utc row_matrix (quiet_env noon_2023_03_22 25)
           {| body_type := Some "all"; body_journey := JObject skipped_journey |})
  = Sent {| status := STATUS_ERROR; payout := PayoutZero |}
  /\ post_delay Engine.utc (fun _ => Ok (reported "00:10"))
                (JourneyItself skipped_journey)
     = Uncaught MissingData.
Proof. split; reflexivity. Qed.

(* ===================================================================== *)
(** * Further properties of the handlers and their helpers *)
(* ===================================================================== *)

(* ===================================================================== *)
(** ** More about decode *)
(* ===================================================================== *)

Lemma join_split (sep : ascii) (s : string) : join sep (split sep s) = s.
Proof.
  induction s as [|c rest IH]; [reflexivity|].
  cbn [split]. destruct (Ascii.eqb_spec c sep) as [->|Hc].
  - pose proof (split_not_nil sep rest) as Hne.
    destruct (split sep rest) as [|tok toks] eqn:E; [congruence|].
    cbn [join]. cbn [join] in IH. change (EmptyString ++ String sep ?x)%string with (String sep x).
    simpl. now rewrite IH.
  - pose proof (split_not_nil sep rest) as Hne.
    destruct (split sep rest) as [|tok toks] eqn:E; [congruence|].
    destruct toks as [|tok' toks'].
    + cbn [join] in *. now rewrite IH.
    + cbn [join] in *. simpl. now rewrite IH.
Qed.

Lemma length_numbered (legs : list leg) (start : nat) :
  List.length (numbered start legs) = List.length legs.
Proof.
  revert start. induction legs as [|l rest IH]; intros start; [reflexivity|].
  cbn [numbered List.length]. now rewrite IH.
Qed.

Lemma length_groups_of_7 (n : nat) : forall tokens,
  List.length tokens = 7 * n -> List.length (groups_of_7 tokens) = n.
Proof.
  induction n as [|n IH]; intros tokens Hlen.
  - destruct tokens; [reflexivity | discriminate].
  - destruct tokens as [|t0 [|t1 [|t2 [|t3 [|t4 [|t5 [|t6 rest]]]]]]];
      try (simpl in Hlen; lia).
    change (groups_of_7 (t0 :: t1 :: t2 :: t3 :: t4 :: t5 :: t6 :: rest))
      with ([t0; t1; t2; t3; t4; t5; t6] :: groups_of_7 rest).
    cbn [List.length]. rewrite (IH rest); [reflexivity|].
    cbn [List.length] in Hlen. lia.
Qed.

Lemma token_count (encoded : string) :
  Nat.modulo (List.length (split ";" encoded)) 7 = 0 ->
  exists n, List.length (split ";" encoded) = 7 * n /\ 0 < n
            /\ Nat.div (List.length (split ";" encoded)) 7 = n.
Proof.
  intros Hmod.
  pose proof (Nat.div_mod_eq (List.length (split ";" encoded)) 7) as E.
  rewrite Hmod in E.
  exists (Nat.div (List.length (split ";" encoded)) 7).
  pose proof (split_not_nil ";" encoded) as Hne.
  destruct (split ";" encoded); [congruence|]. cbn [List.length] in *. lia.
Qed.

Lemma decode_length (encoded : string) :
  List.length (decode encoded)
  = (if Nat.eqb (Nat.modulo (List.length (split ";" encoded)) 7) 0
     then Nat.div (List.length (split ";" encoded)) 7 else 0).
Proof.
  rewrite decode_refines_spec. unfold decode_spec.
  destruct (Nat.eqb_spec (Nat.modulo (List.length (split ";" encoded)) 7) 0)
    as [Hmod|Hmod]; [|reflexivity].
  destruct (token_count encoded Hmod) as (n & Hlen & _ & Hdiv).
  now rewrite length_numbered, length_map, (length_groups_of_7 n), Hdiv.
Qed.

Lemma decode_nil_iff (encoded : string) :
  decode encoded = [] <-> Nat.modulo (List.length (split ";" encoded)) 7 <> 0.
Proof.
  pose proof (decode_length encoded) as Hlen.
  destruct (Nat.eqb_spec (Nat.modulo (List.length (split ";" encoded)) 7) 0)
    as [Hmod|Hmod].
  - destruct (token_count encoded Hmod) as (n & _ & Hpos & Hdiv).
    split; [|congruence]. intros E. rewrite E, Hdiv in Hlen. cbn in Hlen. lia.
  - split; [now intros _|]. intros _.
    destruct (decode encoded); [reflexivity | discriminate].
Qed.

(** X1. [decode] returns as many legs as there are groups of 7 tokens, and
    the empty journey exactly when the number of tokens is not a multiple
    of 7: a string with a well-formed token count never decodes to the
    empty journey. *)
Theorem decode_leg_count (encoded : string) :
  let tokens := split ";" encoded in
  List.length (decode encoded)
  = (if Nat.eqb (Nat.modulo (List.length tokens) 7) 0
     then Nat.div (List.length tokens) 7 else 0)
  /\ (decode encoded = [] <-> Nat.modulo (List.length tokens) 7 <> 0).
Proof.
  intros tokens. split; [apply decode_length | apply decode_nil_iff].
Qed.

Lemma field_values_numbered (groups : list (list string)) (start : nat) :
  Forall (fun g => List.length g = 7) groups ->
  field_values (numbered start (map leg_of_group groups)) = List.concat groups.
Proof.
  intros Hall. revert start.
  induction Hall as [|g rest Hg _ IH]; intros start; [reflexivity|].
  destruct g as [|t0 [|t1 [|t2 [|t3 [|t4 [|t5 [|t6 [|]]]]]]]]; try discriminate.
  cbn [map numbered]. unfold field_values in *. cbn [flat_map List.concat snd].
  rewrite IH. reflexivity.
Qed.

Lemma groups_of_7_lengths (tokens : list string) (n : nat) :
  List.length tokens = 7 * n ->
  Forall (fun g => List.length g = 7) (groups_of_7 tokens).
Proof.
  revert tokens. induction n as [|n IH]; intros tokens Hlen.
  - destruct tokens; [constructor | discriminate].
  - destruct tokens as [|t0 [|t1 [|t2 [|t3 [|t4 [|t5 [|t6 rest]]]]]]];
      try (simpl in Hlen; lia).
    change (groups_of_7 (t0 :: t1 :: t2 :: t3 :: t4 :: t5 :: t6 :: rest))
      with ([t0; t1; t2; t3; t4; t5; t6] :: groups_of_7 rest).
    constructor; [reflexivity|]. apply IH. cbn [List.length] in Hlen. lia.
Qed.

(** X2. [decode] loses nothing of a well-formed string: when the number of
    tokens is a multiple of 7, joining the field values of the decoded
    journey, leg after leg, with [;] gives the encoded string back.  Two
    well-formed strings with the same decoding are therefore equal. *)
Theorem decode_keeps_all_tokens (encoded : string)
  (Hcount : Nat.modulo (List.length (split ";" encoded)) 7 = 0) :
  join ";" (field_values (decode encoded)) = encoded
  /\ forall other,
       Nat.modulo (List.length (split ";" other)) 7 = 0 ->
       decode other = decode encoded -> other = encoded.
Proof.
  assert (forall s, Nat.modulo (List.length (split ";" s)) 7 = 0 ->
                    join ";" (field_values (decode s)) = s) as Hround.
  { intros s Hmod. rewrite decode_refines_spec. unfold decode_spec.
    rewrite Hmod. cbn [Nat.eqb].
    destruct (token_count s Hmod) as (n & Hlen & _ & _).
    rewrite field_values_numbered by (now apply (groups_of_7_lengths _ n)).
    rewrite (groups_of_7_concat n) by exact Hlen.
    apply join_split. }
  split; [now apply Hround|].
  intros other Hother Hsame.
  rewrite <- (Hround other Hother), <- (Hround encoded Hcount). now rewrite Hsame.
Qed.

Lemma decode_keeps_all_tokens_witness :
  join ";" (field_values (decode encoded_booked)) = encoded_booked.
Proof.
  assert (Nat.modulo (List.length (split ";" encoded_booked)) 7 = 0) as Hcount
    by reflexivity.
  exact (proj1 (decode_keeps_all_tokens encoded_booked Hcount)).
Defined.

Lemma validateLeg_group (group : list string) :
  List.length group = 7 ->
  validateLeg (leg_of_group group) = valid_group group.
Proof.
  intros Hlen.
  destruct group as [|t0 [|t1 [|t2 [|t3 [|t4 [|t5 [|t6 [|]]]]]]]]; try discriminate.
  reflexivity.
Qed.

Lemma existsb_numbered (f : leg -> bool) (legs : list leg) (start : nat) :
  existsb (fun kv => f (snd kv)) (numbered start legs) = existsb f legs.
Proof.
  revert start. induction legs as [|l rest IH]; intros start; [reflexivity|].
  cbn [numbered existsb snd]. now rewrite IH.
Qed.

(** X3. Which encoded strings pass the leg validation: for a string with a
    well-formed token count, the validation loop over the decoded journey
    collects no message exactly when every group of 7 tokens has non-empty
    train, start_stop and arrival_stop, times of the form [hh:mm] and dates
    of the form [2yyy-mm-dd].  A decoded leg always carries the seven
    fields of the schema, so none of them is optional here. *)
Theorem decoded_legs_validation (encoded : string)
  (Hcount : Nat.modulo (List.length (split ";" encoded)) 7 = 0) :
  leg_messages (JObject (decode encoded))
  = negb (forallb valid_group (groups_of_7 (split ";" encoded)))
  /\ Forall (fun kv => keys (snd kv) = legSchema_keys) (decode encoded).
Proof.
  rewrite decode_refines_spec. unfold decode_spec. rewrite Hcount. cbn [Nat.eqb].
  destruct (token_count encoded Hcount) as (n & Hlen & _ & _).
  pose proof (groups_of_7_lengths _ n Hlen) as Hgroups.
  cbn [leg_messages]. rewrite existsb_numbered with (f := fun l => negb (validateLeg l)).
  split.
  - induction Hgroups as [|g rest Hg _ IH]; [reflexivity|].
    cbn [map existsb forallb]. rewrite (validateLeg_group g Hg), IH.
    now destruct (valid_group g), (forallb valid_group rest).
  - generalize 1. induction Hgroups as [|g rest Hg _ IH]; intros start; [constructor|].
    cbn [map numbered]. constructor; [|apply IH].
    destruct g as [|t0 [|t1 [|t2 [|t3 [|t4 [|t5 [|t6 [|]]]]]]]]; try discriminate.
    reflexivity.
Qed.

Lemma decoded_legs_validation_witness :
  leg_messages (JObject (decode encoded_booked)) = false.
Proof.
  assert (Nat.modulo (List.length (split ";" encoded_booked)) 7 = 0) as Hcount
    by reflexivity.
  rewrite (proj1 (decoded_legs_validation encoded_booked Hcount)). reflexivity.
Defined.

(* ===================================================================== *)
(** ** retrieveDepartureDate and retrieveArrivalDate *)
(* ===================================================================== *)

Lemma nth_error_last {A : Type} (l : list A) (d : A) :
  l <> [] -> nth_error l (List.length l - 1) = Some (last l d).
Proof.
  induction l as [|a [|b rest] IH]; intros Hne; [congruence | reflexivity |].
  cbn [List.length] in *. replace (S (S (List.length rest)) - 1) with
    (S (S (List.length rest) - 1)) by lia.
  cbn [nth_error]. rewrite IH by discriminate. reflexivity.
Qed.

Lemma last_of_map {A B : Type} (f : A -> B) (l : list A) (d : A) :
  last (map f l) (f d) = f (last l d).
Proof.
  induction l as [|a [|b rest] IH]; [reflexivity | reflexivity |].
  cbn [map last] in *. exact IH.
Qed.

Lemma obj_get_last_leg (legs : list leg) (d : leg) :
  legs <> [] ->
  obj_get ("leg_" ++ string_of_nat (List.length (keys (numbered 1 legs))))
          (numbered 1 legs)
  = Some (last legs d).
Proof.
  intros Hne. fold (leg_key (List.length (keys (numbered 1 legs)))).
  unfold keys. rewrite length_map, length_numbered.
  replace (List.length legs) with (1 + (List.length legs - 1))
    by (destruct legs; [congruence | cbn [List.length]; lia]).
  rewrite obj_get_numbered.
  replace (1 + (List.length legs - 1) - 1) with (List.length legs - 1) by lia.
  now apply nth_error_last.
Qed.

(** X4. On a journey with the legs [leg_1] .. [leg_n], n >= 1 (what
    [decode] produces), [retrieveDepartureDate] builds its Date from the
    start date and time of the first leg and [retrieveArrivalDate] from the
    arrival date and time of the last leg; neither throws. *)
Theorem dates_of_contiguous_journey (rt : runtime) (first : Leg) (rest : list Leg) :
  let legs := first :: rest in
  let final := last legs first in
  retrieveDepartureDate rt (journey_object legs)
  = merge_date_time rt (Some (start_date first)) (Some (start_time first))
  /\ retrieveArrivalDate rt (journey_object legs)
     = merge_date_time rt (Some (arrival_date final)) (Some (arrival_time final))
  /\ (exists departure arrival,
        retrieveDepartureDate rt (journey_object legs) = Ok departure
        /\ retrieveArrivalDate rt (journey_object legs) = Ok arrival).
Proof.
  intros legs final.
  assert (retrieveDepartureDate rt (journey_object legs)
          = merge_date_time rt (Some (start_date first)) (Some (start_time first)))
    as Hdep by reflexivity.
  assert (retrieveArrivalDate rt (journey_object legs)
          = merge_date_time rt (Some (arrival_date final)) (Some (arrival_time final)))
    as Harr.
  { unfold retrieveArrivalDate, journey_object.
    rewrite (obj_get_last_leg _ (leg_of_group (Leg_fields first)))
      by discriminate.
    rewrite (last_of_map (fun l => leg_of_group (Leg_fields l))).
    fold final. reflexivity. }
  split; [exact Hdep|]. split; [exact Harr|].
  rewrite Hdep, Harr. unfold merge_date_time. eauto.
Qed.

Section FixedOffset.
Variable rt : runtime.
Variable off : Z.
Hypothesis Hzone : forall t isUTC, LocalTZA rt t isUTC = off.
Hypothesis Hminutes : (off mod msPerMinute = 0)%Z.
Hypothesis Hoff : (- msPerDay < off < msPerDay)%Z.

Lemma Day_of_midnight (D : Z) : Day (D * msPerDay + off) = local_day off D.
Proof.
  unfold Day, local_day, msPerDay in *. destruct (Z.leb_spec 0 off).
  - symmetry. apply (Z.div_unique _ _ _ off); lia.
  - symmetry. apply (Z.div_unique _ _ _ (86400000 + off)); lia.
Qed.

Lemma whole_minute (x k : Z) :
  (x = 60000 * k)%Z -> SecFromTime x = 0%Z /\ msFromTime x = 0%Z.
Proof.
  intros ->. unfold SecFromTime, msFromTime, msPerSecond. split.
  - replace (60000 * k / 1000)%Z with (60 * k)%Z
      by (apply (Z.div_unique _ _ _ 0); lia).
    rewrite Z.mul_comm. apply Z_mod_mult.
  - replace (60000 * k)%Z with (60 * k * 1000)%Z by lia. apply Z_mod_mult.
Qed.

Lemma merge_fixed_offset (date time hh mm : string) (D h m : Z) :
  split ":" time = [hh; mm] ->
  Date_parse rt date = Some (D * msPerDay)%Z ->
  StringToInteger rt hh = Some h -> StringToInteger rt mm = Some m ->
  (0 <= h < 24)%Z -> (0 <= m < 60)%Z ->
  (Z.abs (D * msPerDay) <= 8640000000000000 - 3 * msPerDay)%Z ->
  merge_date_time rt (Some date) (Some time)
  = Ok (Some (local_day off D * msPerDay + h * msPerHour + m * msPerMinute - off)%Z).
Proof.
  intros Hsplit Hparse Hh Hm Hhr Hmr Hrange.
  unfold merge_date_time. rewrite Hsplit. cbn [nth nth_error Date_new].
  rewrite Hparse. unfold setHours. rewrite Hh.
  unfold LocalTime, UTC. rewrite !Hzone.
  rewrite Day_of_midnight.
  assert (exists k, (D * msPerDay + off = 60000 * k)%Z) as [k Hk].
  { unfold msPerMinute, msPerDay in *.
    exists ((D * 86400000 + off) / 60000)%Z.
    pose proof (Z.div_mod (D * 86400000 + off) 60000) as E.
    replace ((D * 86400000 + off) mod 60000)%Z with 0%Z in E; [lia|].
    symmetry. rewrite Z.add_mod, Hminutes by lia.
    replace (D * 86400000)%Z with (D * 1440 * 60000)%Z by lia.
    rewrite Z_mod_mult. reflexivity. }
  destruct (whole_minute _ k Hk) as [Hsec Hms]. rewrite Hsec, Hms.
  set (mn := MinFromTime (D * msPerDay + off)).
  assert (0 <= mn < 60)%Z as Hmn by (apply Z.mod_pos_bound; lia).
  set (d0 := local_day off D).
  assert (D - 1 <= d0 <= D)%Z as Hd0 by (unfold d0, local_day; destruct (0 <=? off)%Z; lia).
  set (local1 := MakeDate d0 (MakeTime h mn 0 0)).
  assert (local1 = d0 * 86400000 + h * 3600000 + mn * 60000)%Z as Hlocal1
    by (unfold local1, MakeDate, MakeTime, msPerDay, msPerHour, msPerMinute,
          msPerSecond; lia).
  unfold TimeClip at 1.
  replace (Z.abs (local1 - off) <=? 8640000000000000)%Z with true
    by (symmetry; apply Z.leb_le; unfold msPerDay in *; lia).
  unfold setMinutes. cbn [option_map]. rewrite Hm.
  unfold LocalTime, UTC. rewrite !Hzone.
  replace (local1 - off + off)%Z with local1 by lia.
  assert (Day local1 = d0) as ->.
  { unfold Day, msPerDay. symmetry.
    apply (Z.div_unique _ _ _ (h * 3600000 + mn * 60000)); lia. }
  assert (HourFromTime local1 = h) as ->.
  { unfold HourFromTime, msPerHour.
    replace (local1 / 3600000)%Z with (d0 * 24 + h)%Z
      by (apply (Z.div_unique _ _ _ (mn * 60000)); lia).
    rewrite Z.add_comm, Z_mod_plus_full. apply Z.mod_small. lia. }
  destruct (whole_minute local1 (d0 * 1440 + h * 60 + mn)) as [-> ->]; [lia|].
  unfold TimeClip, MakeDate, MakeTime.
  replace (Z.abs _ <=? 8640000000000000)%Z with true
    by (symmetry; apply Z.leb_le;
        unfold msPerDay, msPerHour, msPerMinute, msPerSecond in *; lia).
  do 2 f_equal. unfold msPerSecond. lia.
Qed.
End FixedOffset.

(** X5. On a host with a fixed offset from UTC, [retrieveDepartureDate]
    reads the start date as UTC midnight and then sets hour and minute in
    local time: the Date it returns shows the given hour and minute on the
    given calendar day when the host is at or ahead of UTC, and on the day
    before when the host is behind UTC. *)
Theorem departure_on_fixed_offset_host (rt : runtime) (off : Z) (j : journey)
  (departureLeg : leg) (date time hh mm : string) (D h m : Z)
  (Hzone : forall t isUTC, LocalTZA rt t isUTC = off)
  (Hminutes : (off mod msPerMinute = 0)%Z)
  (Hoff : (- msPerDay < off < msPerDay)%Z)
  (Hleg : obj_get "leg_1" j = Some departureLeg)
  (Hdate : obj_get "start_date" departureLeg = Some date)
  (Htime : obj_get "start_time" departureLeg = Some time)
  (Hsplit : split ":" time = [hh; mm])
  (Hparse : Date_parse rt date = Some (D * msPerDay)%Z)
  (Hh : StringToInteger rt hh = Some h)
  (Hm : StringToInteger rt mm = Some m)
  (Hhour : (0 <= h < 24)%Z) (Hminute : (0 <= m < 60)%Z)
  (Hrange : (Z.abs (D * msPerDay) <= 8640000000000000 - 3 * msPerDay)%Z) :
  exists t : Z,
    retrieveDepartureDate rt j = Ok (Some t)
    /\ LocalTime rt t
       = (local_day off D * msPerDay + h * msPerHour + m * msPerMinute)%Z
    /\ Day (LocalTime rt t) = local_day off D
    /\ ((0 <= off)%Z -> Day (LocalTime rt t) = D)
    /\ ((off < 0)%Z -> Day (LocalTime rt t) = (D - 1)%Z).
Proof.
  eexists. split.
  - unfold retrieveDepartureDate. rewrite Hleg, Hdate, Htime.
    now apply (merge_fixed_offset rt off Hzone Hminutes Hoff date time hh mm D h m).
  - unfold LocalTime. rewrite Hzone.
    assert (Day (local_day off D * msPerDay + h * msPerHour + m * msPerMinute
                 - off + off) = local_day off D) as Hday.
    { unfold Day, msPerDay, msPerHour, msPerMinute. symmetry.
      apply (Z.div_unique _ _ _ (h * 3600000 + m * 60000)); lia. }
    split; [lia|]. split; [exact Hday|]. rewrite Hday. unfold local_day.
    split; intros Hsign.
    + now rewrite (proj2 (Z.leb_le 0 off) Hsign).
    + now rewrite (proj2 (Z.leb_gt 0 off) Hsign).
Qed.

(** Five hours behind UTC, the journey booked for 2023-03-25 (day 19441)
    at 19:30 is given a departure on day 19440. *)
Lemma departure_on_fixed_offset_host_witness :
  exists t : Z,
    retrieveDepartureDate five_hours_west booked = Ok (Some t)
    /\ Day (LocalTime five_hours_west t) = 19440%Z.
Proof.
  assert (forall t isUTC, LocalTZA five_hours_west t isUTC = (-18000000)%Z)
    as Hzone by reflexivity.
  assert (-18000000 mod msPerMinute = 0)%Z as Hminutes by reflexivity.
  assert (- msPerDay < -18000000 < msPerDay)%Z as Hoff by (split; reflexivity).
  assert (Z.abs (19441 * msPerDay) <= 8640000000000000 - 3 * msPerDay)%Z
    as Hrange by (vm_compute; discriminate).
  assert (0 <= 19 < 24)%Z as Hhour by lia.
  assert (0 <= 30 < 60)%Z as Hminute by lia.
  destruct (departure_on_fixed_offset_host five_hours_west (-18000000) booked
              (leg_of_group (Leg_fields (ice_1601 "23:50")))
              "2023-03-25" "19:30" "19" "30" 19441 19 30
              Hzone Hminutes Hoff eq_refl eq_refl eq_refl eq_refl eq_refl
              eq_refl eq_refl Hhour Hminute Hrange)
    as (t & Ht & _ & _ & _ & Hwest).
  exists t. split; [exact Ht|]. apply Hwest. reflexivity.
Defined.

(* ===================================================================== *)
(** ** Invalid Dates and the range of the correction *)
(* ===================================================================== *)

Lemma calculateDelayMinutes_NaN (rt : runtime) (scheduled real : Date) :
  scheduled = None \/ real = None ->
  fst (calculateDelayMinutes rt scheduled real) = None.
Proof.
  intros [-> | ->]; unfold calculateDelayMinutes.
  - destruct real; reflexivity.
  - destruct scheduled; reflexivity.
Qed.

(** X6. When the scheduled or the observed arrival Date is invalid (its date
    string does not parse, or hour or minute is not a number), [/delay]
    still answers with status 0: the delay it sends is NaN, which the test
    [delay < 0] leaves as it is. *)
Theorem delay_of_invalid_date (rt : runtime)
  (zugfinder : journey -> completion journey) (body : delay_body)
  (journey response : journey) (scheduled real : Date)
  (Hbody : delay_journey body = Ok journey)
  (Hnonempty : keys journey <> [])
  (Hvalid : Forall (fun kv => validateLeg (snd kv) = true) journey)
  (Hscheduled : retrieveArrivalDate rt journey = Ok scheduled)
  (Hresponse : zugfinder journey = Ok response)
  (Hreal : retrieveArrivalDate rt response = Ok real)
  (Hinvalid : scheduled = None \/ real = None) :
  post_delay rt zugfinder body
  = Sent {| delay_status := STATUS_OK; delay := None |}.
Proof.
  unfold post_delay. rewrite Hbody.
  destruct (keys journey) as [|k ks] eqn:Ek; [congruence|].
  cbn [List.length Nat.eqb].
  rewrite (no_leg_messages _ Hvalid), Hscheduled, Hresponse, Hreal.
  now rewrite (calculateDelayMinutes_NaN rt scheduled real Hinvalid).
Qed.

Lemma delay_of_invalid_date_witness :
  post_delay Engine.utc
    (fun _ => Ok [("leg_1", [("arrival_time", "00:10"); ("arrival_date", "tomorrow")])])
    (JourneyItself booked)
  = Sent {| delay_status := STATUS_OK; delay := None |}.
Proof.
  apply (delay_of_invalid_date Engine.utc _ _ booked
           [("leg_1", [("arrival_time", "00:10"); ("arrival_date", "tomorrow")])]
           (Some 1679788200000%Z) None);
    try reflexivity; try discriminate.
  - repeat constructor.
  - now right.
Defined.

(** X7. The range of the midnight correction, on a host whose offset from
    UTC does not change: [calculateDelayMinutes] adds one day at most once.
    An observed arrival up to 4 hours early gives a delay of at least
    -240 minutes; one more than 4 hours early is moved by 24 hours and
    gives a delay below 1200 minutes, which is still negative when the
    arrival was more than 28 hours early.  The Date [_realDate] is changed
    in place exactly in the second case. *)
Theorem delay_range (rt : runtime) (off s r : Z)
  (Hzone : forall t isUTC, LocalTZA rt t isUTC = off)
  (Hrange : (Z.abs (r + msPerDay) <= 8640000000000000)%Z) :
  exists minutes : Q,
    calculateDelayMinutes rt (Some s) (Some r)
    = (Some minutes,
       Some (if (r <? s - 4 * msPerHour)%Z then (r + msPerDay)%Z else r))
    /\ ((s - 4 * msPerHour <= r)%Z ->
        (minutes == inject_Z (r - s) / 60000)%Q /\ (- (240) <= minutes)%Q)
    /\ ((r < s - 4 * msPerHour)%Z ->
        (minutes == inject_Z (r + msPerDay - s) / 60000)%Q
        /\ (minutes < 1200)%Q)
    /\ ((r < s - 28 * msPerHour)%Z -> (minutes < 0)%Q).
Proof.
  assert (next_day rt r = (r + msPerDay)%Z) as Hnext
    by (apply next_day_fixed_offset; now rewrite !Hzone).
  unfold calculateDelayMinutes. rewrite early_test, setDate_next_day, Hnext.
  unfold TimeClip. rewrite (proj2 (Z.leb_le _ _) Hrange).
  destruct (Z.ltb_spec r (s - 4 * msPerHour)) as [Hearly|Hlate];
    cbn [num_of_Z num_div option_map]; eexists; (split; [reflexivity|]);
    unfold msPerHour, msPerDay in *;
    repeat split; intros; try lia;
    unfold Qeq, Qle, Qlt, Qdiv, Qmult, Qinv, inject_Z; simpl; lia.
Qed.

Lemma delay_range_witness :
  exists minutes : Q,
    fst (calculateDelayMinutes Engine.utc (Some 1679788200000%Z)
           (Some 1679703000000%Z)) = Some minutes
    /\ (minutes < 1200)%Q.
Proof.
  destruct (delay_range Engine.utc 0 1679788200000 1679703000000)
    as (minutes & Hvalue & _ & Hearly & _).
  - reflexivity.
  - vm_compute. discriminate.
  - exists minutes. split; [now rewrite Hvalue|].
    apply Hearly. reflexivity.
Defined.

(* ===================================================================== *)
(** ** What the /delay handler answers *)
(* ===================================================================== *)

Lemma clamped_not_negative (d : number) :
  let clamped := if num_ltb d (Some 0%Q) then Some 0%Q else d in
  clamped = None \/ exists q, clamped = Some q /\ (0 <= q)%Q.
Proof.
  destruct d as [q|]; cbn [num_ltb]; [|now left]. right.
  destruct (Qle_bool 0 q) eqn:E; cbn [negb].
  - exists q. split; [reflexivity|]. now apply Qle_bool_iff.
  - exists 0%Q. split; [reflexivity|]. apply Qle_refl.
Qed.

(** X8. Every response of [/delay] is one of two kinds: status 100 with
    delay 0, sent exactly for an empty journey or a journey with a leg that
    fails validation, or status 0 with a delay that is NaN or not negative.
    No exception thrown on the way is turned into a response. *)
Theorem delay_responses (rt : runtime)
  (zugfinder : journey -> completion journey) (body : delay_body)
  (response : delay_response) :
  post_delay rt zugfinder body = Sent response ->
  (delay_status response = STATUS_ERROR /\ delay response = Some 0%Q
   /\ exists j, delay_journey body = Ok j
                /\ (j = [] \/ Exists (fun kv => validateLeg (snd kv) = false) j))
  \/ (delay_status response = STATUS_OK
      /\ (delay response = None
          \/ exists q, delay response = Some q /\ (0 <= q)%Q)
      /\ exists j answer scheduled real,
           delay_journey body = Ok j
           /\ retrieveArrivalDate rt j = Ok scheduled
           /\ zugfinder j = Ok answer
           /\ retrieveArrivalDate rt answer = Ok real).
Proof.
  unfold post_delay.
  destruct (delay_journey body) as [j|ex]; [|discriminate].
  destruct (Nat.eqb (List.length (keys j)) 0) eqn:Eempty.
  { intros H. injection H as <-. left. repeat split. exists j.
    split; [reflexivity|]. left. now destruct j. }
  destruct (existsb (fun kv => negb (validateLeg (snd kv))) j) eqn:Elegs.
  { intros H. injection H as <-. left. repeat split. exists j.
    split; [reflexivity|]. right.
    apply existsb_exists in Elegs as (kv & Hin & Hkv).
    apply Exists_exists. exists kv. split; [exact Hin|].
    now apply negb_true_iff. }
  destruct (retrieveArrivalDate rt j) as [scheduled|ex] eqn:Es; [|discriminate].
  destruct (zugfinder j) as [answer|ex] eqn:Ez; [|discriminate].
  destruct (retrieveArrivalDate rt answer) as [real|ex] eqn:Er; [|discriminate].
  intros H. injection H as <-. right. cbn [delay_status delay].
  split; [reflexivity|]. split; [apply clamped_not_negative|].
  now exists j, answer, scheduled, real.
Qed.

Lemma delay_responses_witness :
  delay_status {| delay_status := STATUS_ERROR; delay := Some 0%Q |} = STATUS_ERROR
  /\ post_delay Engine.utc (fun _ => Ok booked) (WithJourneyField (JString "IC 705"))
     = Sent {| delay_status := STATUS_ERROR; delay := Some 0%Q |}.
Proof.
  assert (post_delay Engine.utc (fun _ => Ok booked)
            (WithJourneyField (JString "IC 705"))
          = Sent {| delay_status := STATUS_ERROR; delay := Some 0%Q |}) as Hsent
    by reflexivity.
  destruct (delay_responses Engine.utc _ _ _ Hsent) as [(Hstatus & _)|(Hstatus & _)].
  - split; [exact Hstatus | exact Hsent].
  - discriminate.
Defined.

(** X9. In [/delay] a failure of the call to the tracking service is not
    caught: for a validated journey whose scheduled arrival can be read,
    the exception escapes the handler and no response is sent. *)
Theorem tracking_failure_escapes (rt : runtime)
  (zugfinder : journey -> completion journey) (body : delay_body)
  (j : journey) (scheduled : Date) (ex : exn)
  (Hbody : delay_journey body = Ok j)
  (Hnonempty : keys j <> [])
  (Hvalid : Forall (fun kv => validateLeg (snd kv) = true) j)
  (Hscheduled : retrieveArrivalDate rt j = Ok scheduled)
  (Hfailure : zugfinder j = Throw ex) :
  post_delay rt zugfinder body = Uncaught ex.
Proof.
  unfold post_delay. rewrite Hbody.
  destruct (keys j) as [|k ks] eqn:Ek; [congruence|].
  cbn [List.length Nat.eqb].
  now rewrite (no_leg_messages _ Hvalid), Hscheduled, Hfailure.
Qed.

Lemma tracking_failure_escapes_witness :
  post_delay Engine.utc (fun _ => Throw UpstreamFailure) (JourneyItself booked)
  = Uncaught UpstreamFailure.
Proof.
  apply (tracking_failure_escapes Engine.utc _ _ booked (Some 1679788200000%Z));
    try reflexivity; try discriminate.
  repeat constructor.
Defined.

(* ===================================================================== *)
(** ** What the /payouts handler answers *)
(* ===================================================================== *)

Section PayoutsAnswers.
Variable rt : runtime.
Variable amount : Type.
Variable PAYOUTS : string -> Z -> option amount.

Lemma finish_cases (c : cache_t) (type : option string) (p : number) :
  validateType type = true ->
  exists r reads,
    finish PAYOUTS c type p
    = {| reply := Sent r; cache_after := c; matrix_reads := reads |}
    /\ ((status r = STATUS_PROBABILITY /\ payout r = PayoutZero /\ reads = [])
        \/ (status r = STATUS_OK /\ payout r <> PayoutZero /\ reads <> [])).
Proof.
  intros Htype. destruct type as [t|]; [|discriminate].
  unfold finish, resolve.
  destruct (num_gtb p (Some 40%Q)).
  - do 2 eexists. split; [reflexivity|]. left. now repeat split.
  - destruct (String.eqb t "all"); do 2 eexists; (split; [reflexivity|]);
      right; repeat split; discriminate.
Qed.

Lemma checkForRps_validated (v : jsvalue) :
  leg_messages v = false -> exists b, checkForRps (properties v) = Ok b.
Proof.
  destruct v as [|s|j]; cbn [leg_messages properties]; intros Hlegs;
    try (now exists false).
  induction j as [|[k l] rest IH]; [now exists false|].
  cbn [existsb snd] in Hlegs. apply orb_false_iff in Hlegs as [Hl Hrest].
  apply negb_false_iff in Hl. unfold validateLeg in Hl.
  repeat (apply andb_true_iff in Hl as [Hl ?]).
  cbn [checkForRps].
  assert (string_required "train" l = true) as Htrain by assumption.
  unfold string_required in Htrain.
  destruct (obj_get "train" l) as [name|]; [|discriminate].
  destruct (includes (toLowerCase name) "bus"); [now exists true | now apply IH].
Qed.

(** The handler, outcome by outcome. *)
Lemma post_payouts_cases (e : payouts_env) (body : payouts_body) :
  let result := post_payouts rt PAYOUTS e body in
  (* an exception escapes *)
  (exists ex, result = escape (cache e) ex
     /\ (select_journey body = Throw ex
         \/ (exists v, select_journey body = Ok v /\ is_empty_object v = Throw ex)
         \/ (exists v, select_journey body = Ok v
                       /\ validated (body_type body) v
                       /\ retrieveDepartureDate rt (properties v) = Throw ex)))
  (* a refusal that leaves the cache alone *)
  \/ (exists st, result = respond (cache e) st
        /\ (st = STATUS_ERROR \/ st = STATUS_TIME \/ st = STATUS_SEV))
  (* the probability was found or fetched *)
  \/ (exists v p c',
        select_journey body = Ok v
        /\ passes_gates rt e (body_type body) v
        /\ lookup_or_fetch rt e v = Ok (p, c')
        /\ result = finish PAYOUTS c' (body_type body) p).
Proof.
  unfold post_payouts.
  destruct (select_journey body) as [v|ex] eqn:Hsel.
  2: { left. exists ex. split; [reflexivity | now left]. }
  unfold payouts_pipeline.
  destruct (is_empty_object v) as [[|]|ex] eqn:Hempty.
  3: { left. exists ex. split; [reflexivity|]. right. left. now exists v. }
  { right. left. exists STATUS_ERROR. split; [reflexivity | now left]. }
  destruct (leg_messages v) eqn:Hlegs; cbn [orb].
  { right. left. exists STATUS_ERROR. split; [reflexivity | now left]. }
  destruct (validateType (body_type body)) eqn:Htype; cbn [negb].
  2: { right. left. exists STATUS_ERROR. split; [reflexivity | now left]. }
  assert (validated (body_type body) v) as Hvalid by (now repeat split).
  unfold checkTimeframe.
  destruct (retrieveDepartureDate rt (properties v)) as [departure|ex] eqn:Hdep;
    cbn [bind].
  2: { left. exists ex. split; [reflexivity|]. right. right. now exists v. }
  destruct (num_leb (diffDays departure (Date_now e)) (Some TIME_MIN)
            || num_geb (diffDays departure (Date_now e)) (Some TIME_MAX)) eqn:Hwin.
  { right. left. exists STATUS_TIME. split; [reflexivity | tauto]. }
  destruct (checkForRps_validated v Hlegs) as [b Hrps]. rewrite Hrps.
  destruct b.
  { right. left. exists STATUS_SEV. split; [reflexivity | tauto]. }
  destruct (lookup_or_fetch rt e v) as [[p c']|ex] eqn:Hprob.
  2: { right. left. exists STATUS_ERROR. split; [reflexivity | now left]. }
  right. right. exists v, p, c'. repeat split; try assumption.
  unfold checkTimeframe. rewrite Hdep. cbn [bind]. now rewrite Hwin.
Qed.

(** X10. Every response of [/payouts] carries one of the statuses 0, 10,
    20, 30 and 100, never the reserved status 40.  With a status other than
    0 the payout is 0 and no cell of the matrix was read; with status 0 the
    payout comes from the matrix. *)
Theorem payouts_responses (e : payouts_env) (body : payouts_body)
  (r : payouts_response amount) :
  let result := post_payouts rt PAYOUTS e body in
  reply result = Sent r ->
  In (status r) [STATUS_OK; STATUS_SEV; STATUS_TIME; STATUS_PROBABILITY; STATUS_ERROR]
  /\ status r <> STATUS_MISSING_DELAY
  /\ (status r <> STATUS_OK -> payout r = PayoutZero /\ matrix_reads result = [])
  /\ (status r = STATUS_OK -> payout r <> PayoutZero /\ matrix_reads result <> []).
Proof.
  intros result.
  destruct (post_payouts_cases e body)
    as [(ex & Hres & _)|[(st & Hres & Hst)|(v & p & c' & _ & Hgates & _ & Hres)]];
    fold result in Hres; rewrite Hres.
  - discriminate.
  - cbn [reply respond matrix_reads]. intros H. injection H as <-.
    cbn [status payout].
    destruct Hst as [->|[->| ->]]; (split; [cbn; tauto|]);
      (split; [discriminate|]); split; intros; try discriminate; now split.
  - destruct Hgates as ((_ & _ & Htype) & _).
    destruct (finish_cases c' (body_type body) p Htype)
      as (r' & reads & -> & Hkinds).
    cbn [reply matrix_reads]. intros H. injection H as <-.
    destruct Hkinds as [(-> & -> & ->)|(-> & Hpay & Hreads)].
    + split; [cbn; tauto|]. split; [discriminate|].
      split; intros; try discriminate; now split.
    + split; [cbn; tauto|]. split; [discriminate|].
      split; intros; [congruence | now split].
Qed.
End PayoutsAnswers.

Lemma payouts_responses_witness :
  In (status {| status := STATUS_PROBABILITY; payout := @PayoutZero Z |})
     [STATUS_OK; STATUS_SEV; STATUS_TIME; STATUS_PROBABILITY; STATUS_ERROR].
Proof.
  refine (proj1 (payouts_responses Engine.utc Z row_matrix
                   (quiet_env noon_2023_03_22 (4001 # 100)) small_request
                   {| status := STATUS_PROBABILITY; payout := PayoutZero |} _)).
  reflexivity.
Defined.

Lemma cache_get_set (c : cache_t) (key : string) (value : number) :
  cache_get (cache_set c key value) key = Some value.
Proof. unfold cache_get, cache_set. now rewrite String.eqb_refl. Qed.


Lemma post_payouts_in_map_store (rt : runtime) (amount : Type)
  (PAYOUTS : string -> Z -> option amount) (e : payouts_env)
  (body : payouts_body) :
  let served := post_payouts_in map_get cache_set rt PAYOUTS (cache e) e body in
  response served = reply (post_payouts rt PAYOUTS e body)
  /\ store_after served = cache_after (post_payouts rt PAYOUTS e body)
  /\ cells_read served = matrix_reads (post_payouts rt PAYOUTS e body).
Proof.
  unfold post_payouts_in, post_payouts.
  destruct (select_journey body) as [v|ex]; [|now repeat split].
  unfold payouts_pipeline_in, payouts_pipeline, respond, escape.
  destruct (is_empty_object v) as [[|]|]; try (now repeat split).
  destruct (leg_messages v || negb (validateType (body_type body)));
    [now repeat split|].
  destruct (checkTimeframe rt (Date_now e) (properties v)) as [[[|]|]|];
    try (now repeat split);
    (destruct (checkForRps (properties v)) as [[|]|]; try (now repeat split);
     unfold lookup_or_fetch_in, lookup_or_fetch, map_get, finish;
     destruct (cache_get (cache e) (fingerprint v));
     [|destruct (requestProbability rt e (properties v)); cbn [bind];
       [|now repeat split]];
     (match goal with
      | |- context [resolve PAYOUTS ?t ?q] => destruct (resolve PAYOUTS t q)
      end; now repeat split)).
Qed.



(** X12. A request repeated while its entry is in the cache is served from
    the cache: when a request has passed the gates and obtained its
    probability, the same request against the cache it left behind (and
    still inside the time window) gets the same response, leaves the cache
    unchanged and does not depend on the prediction service. *)
Theorem repeated_request_served_from_cache (rt : runtime) (amount : Type)
  (PAYOUTS : string -> Z -> option amount) (e e' : payouts_env)
  (body : payouts_body) (v : jsvalue) (p : number) (c' : cache_t)
  (Hselect : select_journey body = Ok v)
  (Hfirst : passes_gates rt e (body_type body) v)
  (Hprobability : lookup_or_fetch rt e v = Ok (p, c'))
  (Hcache : cache e' = c')
  (Hsecond : passes_gates rt e' (body_type body) v) :
  reply (post_payouts rt PAYOUTS e' body) = reply (post_payouts rt PAYOUTS e body)
  /\ matrix_reads (post_payouts rt PAYOUTS e' body)
     = matrix_reads (post_payouts rt PAYOUTS e body)
  /\ cache_after (post_payouts rt PAYOUTS e' body) = cache e'
  /\ lookup_or_fetch rt e' v = Ok (p, cache e').
Proof.
  assert (cache_get c' (fingerprint v) = Some p) as Hhit.
  { destruct (lookup_or_fetch_source rt e v p c' Hprobability)
      as [(H & ->)|(_ & _ & ->)]; [exact H | apply cache_get_set]. }
  assert (lookup_or_fetch rt e' v = Ok (p, cache e')) as Hagain.
  { unfold lookup_or_fetch. now rewrite Hcache, Hhit. }
  unfold post_payouts. rewrite Hselect.
  rewrite (pipeline_resolution rt amount PAYOUTS e (body_type body) v p c' Hfirst
             Hprobability).
  rewrite (pipeline_resolution rt amount PAYOUTS e' (body_type body) v p (cache e')
             Hsecond Hagain).
  unfold finish. destruct (resolve PAYOUTS (body_type body) p). now repeat split.
Qed.

Lemma repeated_request_served_from_cache_witness :
  reply (post_payouts Engine.utc row_matrix
           {| Date_now := noon_2023_03_22 + 1000;
              cache := cache_after (post_payouts Engine.utc row_matrix
                                      (quiet_env noon_2023_03_22 25) small_request);
              prediction := fun _ => Throw UpstreamFailure |}
           small_request)
  = reply (post_payouts Engine.utc row_matrix (quiet_env noon_2023_03_22 25)
             small_request).
Proof.
  refine (proj1 (repeated_request_served_from_cache Engine.utc Z row_matrix
            (quiet_env noon_2023_03_22 25) _ small_request
            (JObject (decode encoded_booked)) (Some 25%Q)
            (cache_set (fun _ => None)
               (fingerprint (JObject (decode encoded_booked))) (Some 25%Q))
            _ _ _ _ _)).
  - reflexivity.
  - apply small_request_gates.
  - reflexivity.
  - reflexivity.
  - repeat split.
Defined.

(** X13. A failure of the prediction call is caught: for a request past the
    gates whose fingerprint is not in the cache, an exception thrown by
    [requestProbability] is answered with status 100 and payout 0, and
    nothing is written to the cache. *)
Theorem prediction_failure_answered (rt : runtime) (amount : Type)
  (PAYOUTS : string -> Z -> option amount) (e : payouts_env)
  (body : payouts_body) (v : jsvalue) (ex : exn)
  (Hselect : select_journey body = Ok v)
  (Hgates : passes_gates rt e (body_type body) v)
  (Hmiss : cache_get (cache e) (fingerprint v) = None)
  (Hfailure : requestProbability rt e (properties v) = Throw ex) :
  post_payouts rt PAYOUTS e body = respond (cache e) STATUS_ERROR.
Proof.
  destruct Hgates as (Hvalid & Htime & Hrps).
  unfold post_payouts. rewrite Hselect.
  rewrite (pipeline_validated rt amount PAYOUTS e (body_type body) v Hvalid).
  rewrite Htime, Hrps. unfold lookup_or_fetch. now rewrite Hmiss, Hfailure.
Qed.

Lemma prediction_failure_answered_witness :
  reply (post_payouts Engine.utc row_matrix
           {| Date_now := noon_2023_03_22; cache := fun _ => None;
              prediction := fun _ => Throw UpstreamFailure |}
           small_request)
  = Sent {| status := STATUS_ERROR; payout := PayoutZero |}.
Proof.
  rewrite (prediction_failure_answered Engine.utc Z row_matrix _ small_request
             (JObject (decode encoded_booked)) UpstreamFailure);
    try reflexivity.
  repeat split.
Defined.

(** X14. Malformed requests to [/payouts] whose type is a string or absent.
    With a type other than "all", a
    journey string whose token count is not a multiple of 7, or any journey
    string when the type is not one of the four known, is answered with
    status 100 and payout 0.  With type "all", a non-empty string in place
    of the journey object is answered the same way, while the empty string
    gets past both checks and makes [retrieveDepartureDate] throw. *)
Theorem malformed_payouts_requests (rt : runtime) (amount : Type)
  (PAYOUTS : string -> Z -> option amount) (e : payouts_env) (s : string) :
  (forall type,
     is_all type = false ->
     Nat.modulo (List.length (split ";" s)) 7 <> 0 \/ validateType type = false ->
     post_payouts rt PAYOUTS e {| body_type := type; body_journey := JString s |}
     = respond (cache e) STATUS_ERROR)
  /\ post_payouts rt PAYOUTS e
       {| body_type := Some "all"; body_journey := JString s |}
     = (if String.eqb s "" then escape (cache e) MissingData
        else respond (cache e) STATUS_ERROR).
Proof.
  split.
  - intros type Hall Hbad.
    unfold post_payouts, select_journey. cbn [body_type body_journey].
    rewrite Hall. cbn [negb call_decode bind].
    unfold payouts_pipeline. cbn [is_empty_object].
    destruct (Nat.eqb (List.length (keys (decode s))) 0) eqn:Eempty;
      [reflexivity|].
    destruct Hbad as [Hcount|Htype].
    + apply decode_nil_iff in Hcount.
      rewrite Hcount in Eempty. discriminate.
    + rewrite Htype. cbn [negb]. now rewrite orb_true_r.
  - unfold post_payouts, select_journey. cbn [body_type body_journey is_all].
    cbn [String.eqb Ascii.eqb Bool.eqb negb].
    unfold payouts_pipeline. cbn [is_empty_object leg_messages validateType].
    destruct (String.eqb s ""); reflexivity.
Qed.

(** X15. The times of a leg are optional for validator.js and required by
    the handlers: a journey whose legs all pass validation escapes
    [/payouts] with a TypeError when its first leg has no [start_time], and
    escapes [/delay] with a TypeError when its last leg has no
    [arrival_time]. *)
Theorem optional_times_escape (rt : runtime) (j : journey)
  (Hvalid : Forall (fun kv => validateLeg (snd kv) = true) j) :
  (forall (amount : Type) (PAYOUTS : string -> Z -> option amount) e departureLeg,
     obj_get "leg_1" j = Some departureLeg ->
     obj_get "start_time" departureLeg = None ->
     reply (post_payouts rt PAYOUTS e
              {| body_type := Some "all"; body_journey := JObject j |})
     = Uncaught TypeError)
  /\ (forall zugfinder arrivalLeg,
        obj_get ("leg_" ++ string_of_nat (List.length (keys j))) j = Some arrivalLeg ->
        obj_get "arrival_time" arrivalLeg = None ->
        post_delay rt zugfinder (JourneyItself j) = Uncaught TypeError).
Proof.
  pose proof (no_leg_messages j Hvalid) as Hlegs.
  split.
  - intros amount PAYOUTS e departureLeg Hleg Htime.
    unfold post_payouts, select_journey. cbn [body_type body_journey is_all].
    cbn [String.eqb Ascii.eqb Bool.eqb negb].
    unfold payouts_pipeline. cbn [is_empty_object leg_messages validateType properties].
    destruct j as [|kv rest]; [discriminate|].
    cbn [keys map List.length Nat.eqb]. rewrite Hlegs.
    cbn [existsb String.eqb Ascii.eqb Bool.eqb orb negb].
    unfold checkTimeframe, retrieveDepartureDate. rewrite Hleg.
    unfold merge_date_time. rewrite Htime. reflexivity.
  - intros zugfinder arrivalLeg Hleg Htime.
    unfold post_delay. cbn [delay_journey].
    destruct j as [|kv rest]; [discriminate|].
    cbn [keys map List.length Nat.eqb]. rewrite Hlegs.
    unfold retrieveArrivalDate. cbn [keys map List.length] in Hleg |- *.
    rewrite Hleg. unfold merge_date_time. rewrite Htime. reflexivity.
Qed.

Lemma optional_times_escape_witness :
  post_delay Engine.utc (fun _ => Ok booked)
    (JourneyItself
       [("leg_1", [("train", "ICE 1601"); ("start_stop", "Berlin Hbf");
                   ("arrival_stop", "Muenchen Hbf")])])
  = Uncaught TypeError.
Proof.
  refine (proj2 (optional_times_escape Engine.utc
            [("leg_1", [("train", "ICE 1601"); ("start_stop", "Berlin Hbf");
                        ("arrival_stop", "Muenchen Hbf")])] _)
            _ [("train", "ICE 1601"); ("start_stop", "Berlin Hbf");
               ("arrival_stop", "Muenchen Hbf")] _ _).
  - repeat constructor.
  - reflexivity.
  - reflexivity.
Defined.

(** X16. How [/payouts] can fail to answer a request whose type is a
    string or absent.  An exception escapes the
    handler only in three ways: [decode] is called on something that is not
    a string, the journey is missing although the type is "all", or, after
    validation has passed, [retrieveDepartureDate] throws (no [leg_1], or
    no [start_time] in it).  On a validated journey [checkForRps] and the
    payout lookup never throw, and a throwing [requestProbability] is
    caught.  (For a type that is an object the comparison with "all" can
    throw as well, see [journey_dispatch_by_type].) *)
Theorem payouts_escapes (rt : runtime) (amount : Type)
  (PAYOUTS : string -> Z -> option amount) (e : payouts_env)
  (body : payouts_body) (ex : exn)
  (Hescape : reply (post_payouts rt PAYOUTS e body) = Uncaught ex) :
  (is_all (body_type body) = false
   /\ (forall s, body_journey body <> JString s) /\ ex = TypeError)
  \/ (is_all (body_type body) = true
      /\ body_journey body = JUndefined /\ ex = TypeError)
  \/ (exists v,
        select_journey body = Ok v
        /\ validated (body_type body) v
        /\ retrieveDepartureDate rt (properties v) = Throw ex
        /\ (ex = MissingData \/ ex = TypeError)).
Proof.
  destruct (post_payouts_cases rt amount PAYOUTS e body)
    as [(ex' & Hres & Hwhy)|[(st & Hres & _)|(v & p & c' & _ & Hgates & _ & Hres)]];
    rewrite Hres in Hescape.
  - cbn [reply escape] in Hescape. injection Hescape as ->.
    destruct Hwhy as [Hsel|[(v & Hsel & Hempty)|(v & Hsel & Hvalid & Hdep)]].
    + left. unfold select_journey in Hsel.
      destruct (is_all (body_type body)); cbn [negb] in Hsel; [discriminate|].
      destruct (body_journey body) as [|s|j]; cbn [call_decode bind] in Hsel;
        try discriminate; injection Hsel as <-; now repeat split.
    + unfold select_journey in Hsel.
      destruct (is_all (body_type body)); cbn [negb] in Hsel.
      * injection Hsel as <-. right. left.
        destruct (body_journey body); try discriminate.
        cbn [is_empty_object] in Hempty. injection Hempty as <-. now repeat split.
      * destruct (call_decode (body_journey body)); cbn [bind] in Hsel;
          [|discriminate]. injection Hsel as <-. discriminate.
    + right. right. exists v. repeat split; try assumption; try apply Hvalid.
      unfold retrieveDepartureDate, merge_date_time in Hdep.
      destruct (obj_get "leg_1" (properties v)) as [l|];
        [|injection Hdep as <-; now left].
      destruct (obj_get "start_time" l); [discriminate|].
      injection Hdep as <-. now right.
  - discriminate.
  - destruct Hgates as ((_ & _ & Htype) & _).
    destruct (finish_cases amount PAYOUTS c' (body_type body) p Htype)
      as (r & reads & Hfin & _).
    rewrite Hfin in Hescape. discriminate.
Qed.

Lemma payouts_escapes_witness :
  exists v,
    select_journey {| body_type := Some "all"; body_journey := JObject gap_journey |}
    = Ok v
    /\ retrieveDepartureDate Engine.utc (properties v) = Throw MissingData.
Proof.
  destruct (payouts_escapes Engine.utc Z row_matrix (quiet_env noon_2023_03_22 25)
              {| body_type := Some "all"; body_journey := JObject gap_journey |}
              MissingData eq_refl)
    as [(H & _)|[(_ & H & _)|(v & Hsel & _ & Hdep & _)]]; try discriminate.
  now exists v.
Defined.

(** X17. An unreadable departure date is not refused by the time window:
    when the Date [retrieveDepartureDate] builds for a validated journey is
    invalid, [checkTimeframe] returns nothing (every comparison with NaN is
    false) and [/payouts] never answers with status 20. *)
Theorem invalid_departure_passes_window (rt : runtime) (amount : Type)
  (PAYOUTS : string -> Z -> option amount) (e : payouts_env)
  (body : payouts_body) (v : jsvalue)
  (Hselect : select_journey body = Ok v)
  (Hvalid : validated (body_type body) v)
  (Hinvalid : retrieveDepartureDate rt (properties v) = Ok None) :
  checkTimeframe rt (Date_now e) (properties v) = Ok None
  /\ forall r, reply (post_payouts rt PAYOUTS e body) = Sent r ->
               status r <> STATUS_TIME.
Proof.
  assert (checkTimeframe rt (Date_now e) (properties v) = Ok None) as Htime
    by (unfold checkTimeframe; now rewrite Hinvalid).
  split; [exact Htime|]. intros r.
  unfold post_payouts. rewrite Hselect.
  rewrite (pipeline_validated rt amount PAYOUTS e (body_type body) v Hvalid), Htime.
  destruct (checkForRps_validated v (proj1 (proj2 Hvalid))) as [b ->].
  destruct b; [intros H; injection H as <-; discriminate|].
  destruct (lookup_or_fetch rt e v) as [[p c']|ex'];
    [|intros H; injection H as <-; discriminate].
  destruct (finish_cases amount PAYOUTS c' (body_type body) p (proj2 (proj2 Hvalid)))
    as (r' & reads & -> & Hkinds).
  intros H. injection H as <-.
  destruct Hkinds as [(-> & _)|(-> & _)]; discriminate.
Qed.

Lemma invalid_departure_passes_window_witness :
  checkTimeframe Engine.utc noon_2023_03_22
    [("leg_1", [("train", "ICE 1601"); ("start_stop", "Berlin Hbf");
                ("start_time", "19:30"); ("start_date", "2023-13-01");
                ("arrival_stop", "Muenchen Hbf")])]
  = Ok None.
Proof.
  refine (proj1 (invalid_departure_passes_window Engine.utc Z row_matrix
            (quiet_env noon_2023_03_22 25)
            {| body_type := Some "all";
               body_journey := JObject
                 [("leg_1", [("train", "ICE 1601"); ("start_stop", "Berlin Hbf");
                             ("start_time", "19:30"); ("start_date", "2023-13-01");
                             ("arrival_stop", "Muenchen Hbf")])] |}
            (JObject
               [("leg_1", [("train", "ICE 1601"); ("start_stop", "Berlin Hbf");
                           ("start_time", "19:30"); ("start_date", "2023-13-01");
                           ("arrival_stop", "Muenchen Hbf")])])
            _ _ _)).
  - reflexivity.
  - repeat split.
  - reflexivity.
Defined.

(* ===================================================================== *)
(** ** The testing endpoints *)
(* ===================================================================== *)

Lemma serve_app (b : bool) (first second : list test_request) :
  serve b (first ++ second)
  = (fst (serve (fst (serve b first)) second),
     snd (serve b first) ++ snd (serve (fst (serve b first)) second)).
Proof.
  revert b. induction first as [|req first IH]; intros b; cbn [app serve].
  - cbn [fst snd app]. now destruct (serve b second).
  - destruct (test_step b req) as [b1 response]. rewrite IH.
    destruct (serve b1 first) as [b2 responses]. reflexivity.
Qed.

Lemma serve_keeps (b : bool) (reqs : list test_request) :
  forallb (fun req => negb (boolean_change req)) reqs = true ->
  fst (serve b reqs) = b.
Proof.
  induction reqs as [|req reqs IH]; [reflexivity|].
  cbn [forallb serve]. intros H. apply andb_true_iff in H as [Hreq Hrest].
  destruct req as [|[change|]|]; try discriminate; cbn [test_step post_changeDelay];
    specialize (IH Hrest); destruct (serve b reqs); exact IH.
Qed.

(** X18. The testing endpoints share one flag.  Whatever was asked before,
    once [/changeDelay] has been sent a boolean [b] and no later request
    sends another boolean, the flag is [b]: the oracle then answers status 0
    with the delay 62 for [true] and 2 for [false].  A [/changeDelay]
    request without a boolean, [/getDelay] and the oracle itself leave the
    flag alone. *)
Theorem oracle_follows_last_change (BOOL_DELAY b : bool)
  (before after : list test_request)
  (Hafter : forallb (fun req => negb (boolean_change req)) after = true) :
  let requests := before ++ ChangeDelay (Some b) :: after in
  fst (serve BOOL_DELAY requests) = b
  /\ snd (serve BOOL_DELAY (requests ++ [DelayOracleTesting; GetDelay]))
     = snd (serve BOOL_DELAY requests)
       ++ [ Json {| delay_status := STATUS_OK;
                    delay := Some (if b then 62%Q else 2%Q) |};
            Text ("BOOL_DLEAY is currently set to: " ++ string_of_bool b) ].
Proof.
  intros requests.
  assert (fst (serve BOOL_DELAY requests) = b) as Hflag.
  { unfold requests. rewrite serve_app. cbn [fst].
    change (ChangeDelay (Some b) :: after) with ([ChangeDelay (Some b)] ++ after).
    rewrite serve_app. cbn [fst].
    rewrite (serve_keeps _ after Hafter).
    cbn [serve test_step post_changeDelay]. now destruct b. }
  split; [exact Hflag|].
  rewrite serve_app. cbn [snd]. rewrite Hflag. reflexivity.
Qed.

Lemma oracle_follows_last_change_witness :
  fst (serve BOOL_DELAY_initial
         ([GetDelay] ++ ChangeDelay (Some true) :: [ChangeDelay None; DelayOracleTesting]))
  = true.
Proof.
  exact (proj1 (oracle_follows_last_change BOOL_DELAY_initial true [GetDelay]
                  [ChangeDelay None; DelayOracleTesting] eq_refl)).
Defined.

(* ===================================================================== *)
(** ** telegram.js *)
(* ===================================================================== *)

Lemma string_app_assoc (a b c : string) :
  ((a ++ b) ++ c)%string = (a ++ (b ++ c))%string.
Proof. induction a as [|x a IH]; cbn; [reflexivity | now rewrite IH]. Qed.

Lemma replaceAll_app (pattern : ascii) (replacement a b : string) :
  replaceAll pattern replacement (a ++ b)
  = (replaceAll pattern replacement a ++ replaceAll pattern replacement b)%string.
Proof.
  induction a as [|c a IH]; [reflexivity|]. cbn [append replaceAll].
  rewrite IH. destruct (Ascii.eqb c pattern); [|reflexivity].
  now rewrite string_app_assoc.
Qed.

Lemma format_app (a b : string) :
  Telegram.format (a ++ b) = (Telegram.format a ++ Telegram.format b)%string.
Proof. unfold Telegram.format. cbv zeta. now rewrite !replaceAll_app. Qed.

Lemma format_one (c : ascii) :
  Telegram.format (String c EmptyString)
  = if markdown_special c then escaped c else String c EmptyString.
Proof.
  destruct c as [[] [] [] [] [] [] [] []]; vm_compute; reflexivity.
Qed.

(** X19. [format] escapes in one pass although it is written as fifteen
    replacements: every one of the fifteen characters gets one backslash
    before it, every other character (the backslash itself, and the
    characters [_ * ~ ` > # = |]) stays as it is, no replacement touches
    what an earlier one wrote, and the result of a concatenation is the
    concatenation of the results. *)
Theorem format_escapes_in_one_pass (text : string) :
  Telegram.format text = escape_markdown text
  /\ (forall more, Telegram.format (text ++ more)
                   = (Telegram.format text ++ Telegram.format more)%string)
  /\ String.length (Telegram.format text)
     = String.length text
       + List.length (filter markdown_special (list_ascii_of_string text)).
Proof.
  assert (forall t, Telegram.format t = escape_markdown t) as Hpass.
  { induction t as [|c t IH]; [reflexivity|].
    change (String c t) with (String c EmptyString ++ t)%string.
    rewrite format_app, format_one, IH. cbn [escape_markdown append].
    unfold escaped. now destruct (markdown_special c). }
  split; [apply Hpass|]. split; [intros more; apply format_app|].
  rewrite Hpass. induction text as [|c text IH]; [reflexivity|].
  cbn [escape_markdown list_ascii_of_string filter String.length].
  destruct (markdown_special c); cbn [String.length List.length]; lia.
Qed.

Lemma stops_fold (legs : list Leg) (start : nat) (stops : string) :
  fold_left
    (fun stops kv =>
       (stops ++ " - " ++ Telegram.text_of (obj_get "arrival_stop" (snd kv)))%string)
    (numbered start (map (fun l => leg_of_group (Leg_fields l)) legs)) stops
  = (stops ++ fold_right append EmptyString
                (map (fun l => (" - " ++ arrival_stop l)%string) legs))%string.
Proof.
  revert start stops. induction legs as [|l legs IH]; intros start stops.
  - cbn. revert stops. induction stops as [|c s IHs]; cbn; congruence.
  - cbn [map numbered fold_left fold_right]. rewrite IH.
    rewrite string_app_assoc. reflexivity.
Qed.

(** X20. [retrieveStops] lists the first departure station and then the
    arrival station of every leg, separated by [" - "]; it throws exactly
    when the journey has no [leg_1], so it returns on every journey for
    which [retrieveDepartureDate] returned. *)
Theorem stops_of_journey :
  (forall (first : Leg) (rest : list Leg),
     Telegram.retrieveStops (journey_object (first :: rest))
     = Ok (start_stop first
           ++ fold_right append EmptyString
                (map (fun l => (" - " ++ arrival_stop l)%string) (first :: rest)))%string)
  /\ (forall j, Telegram.retrieveStops j = Throw TypeError
                <-> obj_get "leg_1" j = None)
  /\ (forall rt j d, retrieveDepartureDate rt j = Ok d ->
                     exists stops, Telegram.retrieveStops j = Ok stops).
Proof.
  split; [|split].
  - intros first rest. unfold Telegram.retrieveStops.
    change (obj_get "leg_1" (journey_object (first :: rest)))
      with (Some (leg_of_group (Leg_fields first))).
    unfold journey_object. rewrite stops_fold. reflexivity.
  - intros j. unfold Telegram.retrieveStops.
    destruct (obj_get "leg_1" j); split; intros; congruence.
  - intros rt j d. unfold retrieveDepartureDate, Telegram.retrieveStops.
    destruct (obj_get "leg_1" j); [eauto | discriminate].
Qed.

(* ===================================================================== *)
(** ** JSON.stringify writes each journey differently *)
(* ===================================================================== *)

Lemma json_unescape_escape (c : ascii) (rest : string) :
  json_unescape_head (json_escape c ++ rest) = Some (c, rest).
Proof.
  destruct c as [[] [] [] [] [] [] [] []]; vm_compute; reflexivity.
Qed.

Lemma json_escape_string_inj (s1 : string) :
  forall s2 r1 r2,
    (json_escape_string s1 ++ String dquote r1)%string
    = (json_escape_string s2 ++ String dquote r2)%string ->
    s1 = s2 /\ r1 = r2.
Proof.
  induction s1 as [|c1 s1 IH]; intros [|c2 s2] r1 r2 H; cbn [json_escape_string] in H.
  - cbn in H. injection H as ->. now split.
  - rewrite string_app_assoc in H. apply (f_equal json_unescape_head) in H.
    rewrite json_unescape_escape in H. discriminate.
  - rewrite string_app_assoc in H. apply (f_equal json_unescape_head) in H.
    rewrite json_unescape_escape in H. discriminate.
  - rewrite !string_app_assoc in H. apply (f_equal json_unescape_head) in H.
    rewrite !json_unescape_escape in H. injection H as -> H.
    destruct (IH _ _ _ H) as [-> ->]. now split.
Qed.

Lemma json_quote_inj (s1 s2 r1 r2 : string) :
  (json_quote s1 ++ r1)%string = (json_quote s2 ++ r2)%string ->
  s1 = s2 /\ r1 = r2.
Proof.
  unfold json_quote. cbn [append]. rewrite !string_app_assoc. cbn [append].
  intros H. injection H as H. now apply json_escape_string_inj.
Qed.

Section Members.
Context {A : Type} (member : A -> string).
Hypothesis member_inj : forall a1 a2 r1 r2,
  (member a1 ++ r1)%string = (member a2 ++ r2)%string -> a1 = a2 /\ r1 = r2.

Local Abbreviation entry := (json_member member).

Lemma entry_inj (kv1 kv2 : string * A) (r1 r2 : string) :
  (entry kv1 ++ r1)%string = (entry kv2 ++ r2)%string -> kv1 = kv2 /\ r1 = r2.
Proof.
  unfold json_member. rewrite !string_app_assoc. intros H.
  apply json_quote_inj in H as [Hk H]. cbn [append] in H. injection H as H.
  apply member_inj in H as [Hv Hr].
  destruct kv1, kv2; cbn in *; subst; now split.
Qed.

Lemma entry_head (kv : string * A) (r t : string) :
  (entry kv ++ r)%string <> String "}" t.
Proof. unfold json_member, json_quote. cbn [append]. discriminate. Qed.

Lemma members_inj (o1 : obj A) :
  forall o2 r1 r2,
    (join "," (map entry o1) ++ String "}" r1)%string
    = (join "," (map entry o2) ++ String "}" r2)%string ->
    o1 = o2 /\ r1 = r2.
Proof.
  induction o1 as [|kv1 o1 IH]; intros [|kv2 o2] r1 r2 H.
  - cbn in H. injection H as ->. now split.
  - exfalso. cbn [map join] in H.
    destruct (map entry o2); [|rewrite string_app_assoc in H];
      cbn [append] in H; symmetry in H; now apply entry_head in H.
  - exfalso. cbn [map join] in H.
    destruct (map entry o1); [|rewrite string_app_assoc in H];
      cbn [append] in H; now apply entry_head in H.
  - cbn [map] in H.
    destruct o1 as [|kv1' o1]; destruct o2 as [|kv2' o2]; cbn [map join] in H.
    + apply entry_inj in H as [-> H]. injection H as ->. now split.
    + rewrite string_app_assoc in H. apply entry_inj in H as [_ H]. discriminate.
    + rewrite string_app_assoc in H. apply entry_inj in H as [_ H]. discriminate.
    + rewrite !string_app_assoc in H. apply entry_inj in H as [-> H].
      cbn [append] in H. injection H as H.
      destruct (IH (kv2' :: o2) r1 r2 H) as [-> ->]. now split.
Qed.

Lemma json_object_inj (o1 o2 : obj A) (r1 r2 : string) :
  (json_object member o1 ++ r1)%string = (json_object member o2 ++ r2)%string ->
  o1 = o2 /\ r1 = r2.
Proof.
  unfold json_object. cbn [append]. rewrite !string_app_assoc. cbn [append].
  intros H. injection H as H. now apply members_inj in H.
Qed.
End Members.

Lemma string_app_nil (s : string) : (s ++ EmptyString)%string = s.
Proof. induction s; cbn; congruence. Qed.

(** X21. [JSON.stringify] writes no two journeys alike: journey objects
    with the same serialization have the same legs under the same keys, with
    the same fields and values, in the same order.  So two requests reach
    the same cache entry only when their journeys are equal in this sense,
    or when SHA-256 collides on their serializations. *)
Theorem stringify_journey_injective (j1 j2 : journey) :
  (stringify_journey j1 = stringify_journey j2 <-> j1 = j2)
  /\ (fingerprint (JObject j1) = fingerprint (JObject j2) ->
      j1 = j2
      \/ (stringify_journey j1 <> stringify_journey j2
          /\ sha256 (stringify_journey j1) = sha256 (stringify_journey j2))).
Proof.
  assert (stringify_journey j1 = stringify_journey j2 -> j1 = j2) as Hinj.
  { intros H. unfold stringify_journey in H.
    rewrite <- (string_app_nil (json_object stringify_leg j1)) in H.
    rewrite <- (string_app_nil (json_object stringify_leg j2)) in H.
    apply json_object_inj in H; [tauto|].
    intros l1 l2 r1 r2 Hl. unfold stringify_leg in Hl.
    apply json_object_inj in Hl; [exact Hl|].
    intros s1 s2 q1 q2. apply json_quote_inj. }
  split; [split; [exact Hinj | now intros ->]|].
  unfold fingerprint. cbn [stringify]. intros Hhash.
  destruct (string_dec (stringify_journey j1) (stringify_journey j2)) as [E|N].
  - left. now apply Hinj.
  - right. now split.
Qed.

(* ===================================================================== *)
(** ** The concrete engine on strings *)
(* ===================================================================== *)

Example string_to_integer_literals :
  map Engine.string_to_integer
    [ "19"; "07"; ""; " 5 "; "+5"; "-5"; "1e2"; "1.5e1"; ".5"; "5."; "0x1F";
      "0o17"; "0b11" ]
  = map Some [ 19; 7; 0; 5; 5; -5; 100; 15; 0; 5; 31; 15; 3 ]%Z
  /\ map Engine.string_to_integer
       [ "."; "1e"; "0x"; "0b102"; "-0x1"; "1_0"; "1 2"; "12abc"; "Infinity";
         "ab" ]
     = map (fun _ => None) (seq 0 10)
  /\ Engine.string_to_integer (Engine.bytes [194; 160; 52; 50; 10]) = Some 42%Z.
Proof. repeat split. Qed.

Example parse_date_days :
  Engine.parse_date "2023-03-25" = Some 1679702400000%Z
  /\ Engine.parse_date "2024-02-29" = Some 1709164800000%Z
  /\ Engine.parse_date "2023-02-30" = Engine.parse_date "2023-03-02"
  /\ Engine.parse_date "2023-04-31" = Engine.parse_date "2023-05-01"
  /\ map Engine.parse_date
       [ "2023-13-01"; "2023-00-10"; "2023-01-00"; "2023-01-32"; "+202-03-25";
         "2023-3-25"; "25.03.2023" ]
     = map (fun _ => None) (seq 0 7).
Proof. repeat split. Qed.
